(** * Composite coverage maps

    A shallow embedding of the three compositing scripts
    [composite.py] (best signal), [composite_best_server.py] (attributed
    best server) and [composite_redundancy.py] (overlap consensus), and
    the properties of the colour table, the canvas geometry and the three
    merge rules.

    Conventions.
    - A Python [float] is an IEEE-754 binary64 value and a [numpy.float32]
      a binary32 value; both are [spec_float] terms, operated on with the
      Standard Library's specification of IEEE arithmetic.
    - A numpy array of shape (h, w) is its shape with a function from
      indices to cells.
    - A Python [dict] is a [gmap]; a numpy [uint8] cell is a [Z] kept in
      the range 0..255 by [u8].
    - [float()], [int()] on text and [list.sort] are Python's own; the first
      two are parameters of the table loader. *)

From Stdlib Require Import ZArith String Ascii Lia.
From Stdlib Require Import Floats.SpecFloat.
From stdpp Require Import base option list gmap strings sorting.

Local Open Scope Z_scope.

(** ** Exceptions *)

Inductive exn :=
| FileNotFoundError
| ZeroDivisionError
| ValueError
| OverflowError
| IOError.

(** A computation that returns a value or raises. *)
Definition res (A : Type) : Type := exn + A.

Definition bind {A B : Type} (m : res A) (k : A -> res B) : res B :=
  match m with
  | inl e => inl e
  | inr a => k a
  end.

Notation "'let*' x ':=' m 'in' k" := (bind m (fun x => k))
  (at level 10, x name, m at level 100, k at level 200).

(** ** Python and numpy numbers *)

Module Py.

(** binary64: Python's [float]. *)
Definition float := spec_float.
(** binary32: the cells of a [numpy.float32] array. *)
Definition float32 := spec_float.

Definition fsub : float -> float -> float := SFsub 53 1024.
Definition fmul : float -> float -> float := SFmul 53 1024.
Definition fdiv : float -> float -> float := SFdiv 53 1024.

(** Comparisons are those of IEEE-754 at either width: every comparison
    with a NaN is false, except [!=]. *)
Definition lt (x y : spec_float) : bool := SFltb x y.
Definition le (x y : spec_float) : bool := SFleb x y.
Definition eq (x y : spec_float) : bool := SFeqb x y.
Definition ne (x y : spec_float) : bool := negb (SFeqb x y).

Definition is_nan (x : spec_float) : bool :=
  match x with S754_nan => true | _ => false end.

Definition is_zero (x : spec_float) : bool :=
  match x with S754_zero _ => true | _ => false end.

(** A float that is a number: a zero or a finite value. *)
Definition is_finite (x : spec_float) : bool :=
  match x with S754_zero _ | S754_finite _ _ _ => true | _ => false end.

(** The float of a Python [int] (correctly rounded); an [int] too large
    for a float raises OverflowError. *)
Definition of_int (n : Z) : res float :=
  match binary_normalize 53 1024 n 0 false with
  | S754_infinity _ => inl OverflowError
  | x => inr x
  end.

(** [n / d] with [n] an int and [d] a float: a zero divisor raises
    ZeroDivisionError. *)
Definition int_truediv (n : Z) (d : float) : res float :=
  if is_zero d then inl ZeroDivisionError
  else let* x := of_int n in inr (fdiv x d).

(** [int(x)]: truncation toward zero; a NaN raises ValueError and an
    infinity OverflowError. *)
Definition int_of_float (x : float) : res Z :=
  match x with
  | S754_zero _ => inr 0
  | S754_finite s m e =>
      inr (cond_Zopp s (if 0 <=? e then Zpos m * 2 ^ e
                        else Zpos m / 2 ^ (- e)))
  | S754_nan => inl ValueError
  | S754_infinity _ => inl OverflowError
  end.

(** Storing a Python float in a float32 array rounds it to binary32. *)
Definition to_f32 (x : float) : float32 :=
  match x with
  | S754_finite s m e => binary_round 24 128 s m e
  | _ => x
  end.

(** [max(xs)] and [min(xs)] over a non-empty sequence: the first item,
    replaced by each later item that compares [>] (resp. [<]) to it. *)
Definition max (x : float) (xs : list float) : float :=
  foldl (fun m item => if lt m item then item else m) x xs.
Definition min (x : float) (xs : list float) : float :=
  foldl (fun m item => if lt item m then item else m) x xs.

(** A numpy [uint8] cell: arithmetic wraps modulo 256. *)
Definition u8 (n : Z) : Z := n mod 256.

End Py.

(** ** Constants of the scripts *)

(** [UNDEFINED_PATH_LOSS = 9999.0], as a float32 cell. *)
Definition UNDEFINED_PATH_LOSS : Py.float32 := S754_finite false 10238976 (-10).
(** [VALID_THRESHOLD_DB = 150.0]. *)
Definition VALID_THRESHOLD_DB : Py.float32 := S754_finite false 9830400 (-16).
(** [MIN_OVERLAP_COUNT = 2]. *)
Definition MIN_OVERLAP_COUNT : Z := 2.

(** ** Text: [str.strip], [str.startswith] and [re.split] *)

Section Text.
Local Open Scope char_scope.

(** [str.isspace] and the regular expression class [\s] on the code
    points below 256. *)
Definition is_space (c : ascii) : bool :=
  let n := N_of_ascii c in
  ((9 <=? n) && (n <=? 13) || (28 <=? n) && (n <=? 32)
   || (n =? 133) || (n =? 160))%N.

(** The separators of [[;:,]]. *)
Definition is_sep (c : ascii) : bool :=
  match c with ";" | ":" | "," => true | _ => false end.

Fixpoint lstrip (s : string) : string :=
  match s with
  | String c s' => if is_space c then lstrip s' else s
  | EmptyString => s
  end.

Fixpoint rev_string (acc s : string) : string :=
  match s with
  | String c s' => rev_string (String c acc) s'
  | EmptyString => acc
  end.

(** [line.strip()]. *)
Definition strip (s : string) : string :=
  rev_string EmptyString (lstrip (rev_string EmptyString (lstrip s))).

(** [line.startswith('#')]. *)
Definition is_comment (s : string) : bool :=
  match s with String "#" _ => true | _ => false end.

Definition push (c : ascii) (parts : list string) : list string :=
  match parts with
  | p :: ps => String c p :: ps
  | [] => [String c EmptyString]
  end.

(** [re.split(r'[;:,]\s*', line)]: a separator ends the current part and
    takes the white space that follows it; [skipping] says that the
    scan is inside that white space. *)
Fixpoint re_split_from (skipping : bool) (s : string) : list string :=
  match s with
  | EmptyString => [EmptyString]
  | String c s' =>
      if is_sep c then EmptyString :: re_split_from true s'
      else if skipping && is_space c then re_split_from true s'
      else push c (re_split_from false s')
  end.

Definition re_split (s : string) : list string := re_split_from false s.
End Text.

(** ** The colour table: [ColorScale] *)

(** A colour as the table keys it: a tuple of three Python ints. *)
Abbreviation color := (Z * Z * Z)%type.
(** An entry of the legend list: [(db, r, g, b)]. *)
Abbreviation entry := (Py.float * Z * Z * Z)%type.

Definition entry_db (e : entry) : Py.float := e.1.1.1.
Definition entry_color (e : entry) : color := (e.1.1.2, e.1.2, e.2).

Record ColorScale := {
  color_map : gmap color Py.float;
  entries : list entry
}.

(** [list.sort(key=...)] on the entries: a stable sort that compares
    the keys with [<]. It is written as a straight insertion: each entry
    in turn moves left past the entries whose key is greater than its
    own. ([sorted_rev] is the part already sorted, last entry first.)
    When no key is a NaN every stable sort by [<] gives the same list,
    and this is the list of [list.sort]. With a NaN among the keys the
    list of [list.sort] depends on its runs and its binary insertion,
    which the straight insertion follows on the list 2.0, nan, 1.0 (one
    run, left as it is) but not on every list. *)
Fixpoint insert_left (key : entry -> Py.float) (x : entry) (sorted_rev : list entry)
  : list entry :=
  match sorted_rev with
  | y :: rest =>
      if Py.lt (key x) (key y) then y :: insert_left key x rest
      else x :: sorted_rev
  | [] => [x]
  end.

Definition sort_by (key : entry -> Py.float) (l : list entry) : list entry :=
  rev (foldl (fun acc x => insert_left key x acc) [] l).

(** The table file as a run finds it: no file at the path; a file that
    is there but that [open()] or the reading of its lines refuses with
    an exception (a directory, a file without read permission, bytes
    that are no text); or the lines read. *)
Inductive lcf_file :=
| Missing
| Unreadable (e : exn)
| Readable (lines : list string).

Section LoadLcf.
(** Python's [float(text)] and [int(text)]: [None] stands for the
    ValueError of a text that is not a number. *)
Variable py_float : string -> option Py.float.
Variable py_int : string -> option Z.

(** One line of the file: the entry it contributes, if any. *)
Definition parse_line (line : string) : option entry :=
  let line := strip line in
  if bool_decide (line = EmptyString) || is_comment line then None
  else
    match re_split line with
    | p0 :: p1 :: p2 :: p3 :: _ =>
        match py_float p0, py_int p1, py_int p2, py_int p3 with
        | Some db, Some r, Some g, Some b => Some (db, r, g, b)
        | _, _, _, _ => None
        end
    | _ => None
    end.

(** The body of the [for line in f] loop. *)
Definition load_line (cs : ColorScale) (line : string) : ColorScale :=
  match parse_line line with
  | Some (db, r, g, b) =>
      {| color_map := <[(r, g, b) := db]> (color_map cs);
         entries := entries cs ++ [(db, r, g, b)] |}
  | None => cs
  end.

Definition empty_scale : ColorScale := {| color_map := ∅; entries := [] |}.

(** [ColorScale.load_lcf]. The test of [os.path.exists] raises
    FileNotFoundError; what [open()] or the reading of the lines raises
    is under no [try] of [load_lcf] and goes to the caller as it is;
    the lines that are read never make the load fail, since the only
    exception of the loop body, the ValueError of [float()] and
    [int()], is caught there. *)
Definition load_lcf (file : lcf_file) : res ColorScale :=
  match file with
  | Missing => inl FileNotFoundError
  | Unreadable e => inl e
  | Readable lines =>
      let cs := foldl load_line empty_scale lines in
      inr {| color_map := color_map cs;
             entries := sort_by entry_db (entries cs) |}
  end.
End LoadLcf.

(** ** numpy arrays of shape (h, w) *)

(** An array is its shape and its cells; only the cells inside the shape
    mean anything. *)
Record ndarray (A : Type) := {
  nrows : Z;
  ncols : Z;
  cell : Z -> Z -> A
}.
Arguments nrows {A} _.
Arguments ncols {A} _.
Arguments cell {A} _ _ _.

Section Numpy.
Context {A B C : Type}.

Definition shape (a : ndarray A) : Z * Z := (nrows a, ncols a).

(** [(y, x)] is an index of [a]. *)
Definition inside (a : ndarray A) (y x : Z) : Prop :=
  0 <= y < nrows a /\ 0 <= x < ncols a.

(** [np.full((h, w), v)] and [np.zeros((h, w))]. *)
Definition np_full (h w : Z) (v : A) : ndarray A :=
  {| nrows := h; ncols := w; cell := fun _ _ => v |}.

(** A bound of a Python slice on an axis of length [len]: a negative
    bound counts from the end, and both are clipped to the axis. *)
Definition slice_index (i len : Z) : Z :=
  if i <? 0 then Z.max 0 (len + i) else Z.min i len.

(** [a[y0:y1, x0:x1]]. *)
Definition slice2 (a : ndarray A) (y0 y1 x0 x1 : Z) : ndarray A :=
  let r0 := slice_index y0 (nrows a) in
  let r1 := slice_index y1 (nrows a) in
  let c0 := slice_index x0 (ncols a) in
  let c1 := slice_index x1 (ncols a) in
  {| nrows := Z.max 0 (r1 - r0);
     ncols := Z.max 0 (c1 - c0);
     cell := fun y x => cell a (r0 + y) (c0 + x) |}.

(** [a[y0:y1, x0:x1] = new], for [new] of the shape of the slice. *)
Definition set_slice2 (a : ndarray A) (y0 y1 x0 x1 : Z) (new : ndarray A)
  : ndarray A :=
  let r0 := slice_index y0 (nrows a) in
  let r1 := slice_index y1 (nrows a) in
  let c0 := slice_index x0 (ncols a) in
  let c1 := slice_index x1 (ncols a) in
  {| nrows := nrows a;
     ncols := ncols a;
     cell := fun y x =>
               if (r0 <=? y) && (y <? r1) && (c0 <=? x) && (x <? c1)
               then cell new (y - r0) (x - c0)
               else cell a y x |}.

(** An operation cell by cell on one array, and on two of one shape. *)
Definition amap (f : A -> B) (a : ndarray A) : ndarray B :=
  {| nrows := nrows a; ncols := ncols a;
     cell := fun y x => f (cell a y x) |}.

Definition amap2 (f : A -> B -> C) (a : ndarray A) (b : ndarray B)
  : ndarray C :=
  {| nrows := nrows a; ncols := ncols a;
     cell := fun y x => f (cell a y x) (cell b y x) |}.

(** [np.where(mask, a, b)], and [b[mask] = a[mask]], which leaves in
    [b] the same cells. *)
Definition np_where (mask : ndarray bool) (a b : ndarray A) : ndarray A :=
  {| nrows := nrows mask; ncols := ncols mask;
     cell := fun y x => if cell mask y x then cell a y x else cell b y x |}.
End Numpy.

Definition mask_and (a b : ndarray bool) : ndarray bool := amap2 andb a b.

(** ** Layers *)

(** An RGBA pixel of the output. *)
Abbreviation rgba := (Z * Z * Z * Z)%type.

Definition transparent : rgba := (0, 0, 0, 0).
Definition opaque (c : color) : rgba := (c.1.1, c.1.2, c.2, 255).

(** [MapLayer]: the box read from the KML file and the raster beside it.
    [png] is the array that [Image.open(png_path).convert('RGB')] gives,
    [None] when opening the file raises. *)
Record MapLayer := {
  kml_path : string;
  png : option (ndarray color);
  north : Py.float;
  south : Py.float;
  east : Py.float;
  west : Py.float
}.

(** What the scripts print, as far as it marks the stage reached: the
    error that ends the run, the table loaded, the layers found, the
    layers merged, and the last stage before the files are written. The
    other messages are left out, among them those of layers that are
    skipped. A layer is named by the path of its KML file. *)
Inductive event :=
| PrintError (e : exn)
| PrintLoaded (n : nat)
| PrintParsing
| PrintFound (kml : string)
| PrintMerging (kml : string)
| PrintFiltering
| PrintPainting
| PrintSaving.

(** How a run ends: a plain [return], an exception nobody catches, or
    the buffers of the merge loop handed to the writers of the image,
    the legend and the KML. What the writers do with them is not part
    of the model (on a canvas without rows or columns the image writer
    raises). *)
Inductive run (A : Type) :=
| Return
| Raise (e : exn)
| Saved (out : A).
Arguments Return {A}.
Arguments Raise {A} _.
Arguments Saved {A} _.

(** ** The canvas geometry (the same in the three scripts) *)

Record geometry := {
  global_north : Py.float;
  global_south : Py.float;
  global_east : Py.float;
  global_west : Py.float;
  ppd_lat : Py.float;
  ppd_lon : Py.float;
  master_h : Z;
  master_w : Z
}.

(** From the bounds of the layers to the size of the canvas. The first
    layer is the reference; its image is opened outside any [try], so
    every exception here ends the run. [np.full] refuses a negative
    dimension. *)
Definition canvas_geometry (ref_layer : MapLayer) (others : list MapLayer)
  : res geometry :=
  let global_north := Py.max (north ref_layer) (north <$> others) in
  let global_south := Py.min (south ref_layer) (south <$> others) in
  let global_east := Py.max (east ref_layer) (east <$> others) in
  let global_west := Py.min (west ref_layer) (west <$> others) in
  match png ref_layer with
  | None => inl IOError
  | Some img =>
      let w := ncols img in
      let h := nrows img in
      let* ppd_lat := Py.int_truediv h (Py.fsub (north ref_layer) (south ref_layer)) in
      let* ppd_lon := Py.int_truediv w (Py.fsub (east ref_layer) (west ref_layer)) in
      let* master_h := Py.int_of_float (Py.fmul (Py.fsub global_north global_south) ppd_lat) in
      let* master_w := Py.int_of_float (Py.fmul (Py.fsub global_east global_west) ppd_lon) in
      if (master_h <? 0) || (master_w <? 0) then inl ValueError
      else inr {| global_north := global_north; global_south := global_south;
                  global_east := global_east; global_west := global_west;
                  ppd_lat := ppd_lat; ppd_lon := ppd_lon;
                  master_h := master_h; master_w := master_w |}
  end.

(** The corners of a layer on the canvas, as the merge loop names
    them. *)
Record extent := {
  y_start : Z;
  x_start : Z;
  y_end : Z;
  x_end : Z
}.

Definition curr_h (e : extent) : Z := y_end e - y_start e.
Definition curr_w (e : extent) : Z := x_end e - x_start e.

(** Where a layer lands on the canvas: lines "y_start = ..." to
    "if curr_h <= 0 or curr_w <= 0: continue" of the merge loop. [None]
    is a layer that contributes nothing: [int()] raised inside the
    [try], or the overlap is empty. *)
Definition layer_extent (g : geometry) (layer : MapLayer) (src_arr : ndarray color)
  : option extent :=
  let src_h := nrows src_arr in
  let src_w := ncols src_arr in
  match Py.int_of_float (Py.fmul (Py.fsub (global_north g) (north layer)) (ppd_lat g)),
        Py.int_of_float (Py.fmul (Py.fsub (west layer) (global_west g)) (ppd_lon g)) with
  | inr y_start, inr x_start =>
      let y_end := Z.min (y_start + src_h) (master_h g) in
      let x_end := Z.min (x_start + src_w) (master_w g) in
      let e := {| y_start := y_start; x_start := x_start;
                  y_end := y_end; x_end := x_end |} in
      if (curr_h e <=? 0) || (curr_w e <=? 0) then None else Some e
  | _, _ => None
  end.

(** Decoding colours to path loss: [temp_loss] starts as UNDEFINED
    everywhere and, for each key of the table in turn, takes the key's
    value where the pixel is the key. (The keys of a dict differ from
    one another, so the order of the turns is of no account.) *)
Definition decode (cm : gmap color Py.float) (src_chunk : ndarray color)
  : ndarray Py.float32 :=
  foldl (fun temp_loss '(key, db) =>
           let mask := amap (fun px => bool_decide (px = key)) src_chunk in
           np_where mask (amap (fun _ => Py.to_f32 db) src_chunk) temp_loss)
        (np_full (nrows src_chunk) (ncols src_chunk) UNDEFINED_PATH_LOSS)
        (map_to_list cm).

(** [needle in text]. *)
Definition contains (needle text : string) : bool :=
  match String.index 0 needle text with
  | Some _ => true
  | None => false
  end.

(** * composite.py: the best signal wins *)

Module Composite.

Definition OUTPUT_NAME : string := "composite_coverage".

(** The two buffers of the merge loop. *)
Record canvas := {
  master_loss : ndarray Py.float32;
  master_rgba : ndarray rgba
}.

Definition blank (g : geometry) : canvas :=
  {| master_loss := np_full (master_h g) (master_w g) UNDEFINED_PATH_LOSS;
     master_rgba := np_full (master_h g) (master_w g) transparent |}.

(** The body of [for layer in layers]. Every exception inside it is
    caught, and none is raised after a buffer has been written: the
    layer is then skipped and the canvas is as it was. That is the case
    when the image cannot be opened, when [int()] raises, and when the
    slice of the canvas has not the shape of [temp_loss], which takes a
    negative offset (numpy raises on the mismatch, or the slice is
    empty and nothing is written to it). *)
Definition merge_layer (color_scale : ColorScale) (g : geometry)
    (st : canvas) (layer : MapLayer) : canvas :=
  match png layer with
  | None => st
  | Some src_arr =>
      match layer_extent g layer src_arr with
      | None => st
      | Some e =>
          let src_chunk := slice2 src_arr 0 (curr_h e) 0 (curr_w e) in
          let temp_loss := decode (color_map color_scale) src_chunk in
          let master_slice :=
            slice2 (master_loss st) (y_start e) (y_end e) (x_start e) (x_end e) in
          if bool_decide (shape master_slice = shape temp_loss) then
            let update_mask :=
              mask_and (amap2 Py.lt temp_loss master_slice)
                       (amap (fun t => Py.ne t UNDEFINED_PATH_LOSS) temp_loss) in
            let master_loss' :=
              set_slice2 (master_loss st) (y_start e) (y_end e) (x_start e) (x_end e)
                         (np_where update_mask temp_loss master_slice) in
            let target_region :=
              slice2 (master_rgba st) (y_start e) (y_end e) (x_start e) (x_end e) in
            let src_chunk_rgba := amap opaque src_chunk in
            let target_region' := np_where update_mask src_chunk_rgba target_region in
            {| master_loss := master_loss';
               master_rgba :=
                 set_slice2 (master_rgba st) (y_start e) (y_end e) (x_start e) (x_end e)
                            target_region' |}
          else st
      end
  end.

(** What the run hands to the image writer, the legend and the KML. *)
Record output := {
  image : ndarray rgba;
  legend : list entry;
  box : Py.float * Py.float * Py.float * Py.float
}.

(** [kml_files] is what [glob] finds: each path with the [MapLayer]
    built from it, [None] when the constructor raises. *)
Definition discover (kml_files : list (string * option MapLayer)) : list MapLayer :=
  omap (fun '(kml, layer) => if contains OUTPUT_NAME kml then None else layer)
       kml_files.

Section Run.
Variable py_float : string -> option Py.float.
Variable py_int : string -> option Z.

Definition create_composite_map (lcf : lcf_file)
    (kml_files : list (string * option MapLayer)) : list event * run output :=
  match load_lcf py_float py_int lcf with
  | inl e => ([PrintError e], Return)
  | inr color_scale =>
      let layers := discover kml_files in
      let log := [PrintLoaded (size (color_map color_scale)); PrintParsing]
                   ++ (PrintFound ∘ kml_path <$> layers) in
      match layers with
      | [] => (log, Return)
      | ref_layer :: others =>
          match canvas_geometry ref_layer others with
          | inl e => (log, Raise e)
          | inr g =>
              let st := foldl (merge_layer color_scale g) (blank g) layers in
              (log ++ (PrintMerging ∘ kml_path <$> layers) ++ [PrintSaving],
               Saved {| image := master_rgba st;
                        legend := entries color_scale;
                        box := (global_north g, global_south g,
                                global_east g, global_west g) |})
          end
      end
  end.
End Run.

End Composite.

(** * composite_best_server.py: each pixel goes to its best server *)

Module BestServer.

Definition OUTPUT_NAME : string := "composite_best_server".

Definition SERVER_PALETTE : list color :=
  [ (255, 0, 0); (0, 0, 255); (0, 128, 0); (255, 165, 0); (128, 0, 128);
    (0, 255, 255); (255, 20, 147); (255, 255, 0); (139, 69, 19); (0, 0, 0) ].

(** This script's [MapLayer] also carries the layer's number and the
    colour it is painted with. *)
Record ServerLayer := {
  base : MapLayer;
  index : Z;
  display_color : color
}.

(** The discovery loop: [idx_counter] advances only past a layer that
    loads. *)
Definition discover_step (acc : Z * list ServerLayer)
    (found : string * option MapLayer) : Z * list ServerLayer :=
  let '(idx_counter, layers) := acc in
  let '(kml, layer) := found in
  if contains "composite" kml then acc
  else
    match layer with
    | Some l =>
        let color :=
          default (0, 0, 0)
            (SERVER_PALETTE !! Z.to_nat (idx_counter mod Z.of_nat (length SERVER_PALETTE))) in
        (idx_counter + 1,
         layers ++ [{| base := l; index := idx_counter + 1; display_color := color |}])
    | None => acc
    end.

Definition discover (kml_files : list (string * option MapLayer)) : list ServerLayer :=
  (foldl discover_step (0, []) kml_files).2.

(** The buffers of the merge loop; owner 0 is "no coverage". *)
Record canvas := {
  master_loss : ndarray Py.float32;
  master_owner_id : ndarray Z
}.

Definition blank (g : geometry) : canvas :=
  {| master_loss := np_full (master_h g) (master_w g) UNDEFINED_PATH_LOSS;
     master_owner_id := np_full (master_h g) (master_w g) 0 |}.

(** The body of the merge loop. The layer's number is stored in a
    uint8 array (a number above 255 is stored modulo 256). *)
Definition merge_layer (color_scale : ColorScale) (g : geometry)
    (st : canvas) (layer : ServerLayer) : canvas :=
  match png (base layer) with
  | None => st
  | Some src_arr =>
      match layer_extent g (base layer) src_arr with
      | None => st
      | Some e =>
          let src_chunk := slice2 src_arr 0 (curr_h e) 0 (curr_w e) in
          let temp_loss := decode (color_map color_scale) src_chunk in
          let master_slice :=
            slice2 (master_loss st) (y_start e) (y_end e) (x_start e) (x_end e) in
          if bool_decide (shape master_slice = shape temp_loss) then
            let better_mask :=
              mask_and (amap2 Py.lt temp_loss master_slice)
                       (amap (fun t => Py.le t VALID_THRESHOLD_DB) temp_loss) in
            let master_loss' :=
              set_slice2 (master_loss st) (y_start e) (y_end e) (x_start e) (x_end e)
                         (np_where better_mask temp_loss master_slice) in
            let owner_slice :=
              slice2 (master_owner_id st) (y_start e) (y_end e) (x_start e) (x_end e) in
            {| master_loss := master_loss';
               master_owner_id :=
                 set_slice2 (master_owner_id st) (y_start e) (y_end e) (x_start e) (x_end e)
                   (np_where better_mask
                      (amap (fun _ => Py.u8 (index layer)) owner_slice) owner_slice) |}
          else st
      end
  end.

(** The painting loop: each layer in turn colours the pixels it owns. *)
Definition paint_layer (master_owner_id : ndarray Z) (final_rgba : ndarray rgba)
    (layer : ServerLayer) : ndarray rgba :=
  let mask := amap (fun owner => bool_decide (owner = index layer)) master_owner_id in
  np_where mask (amap (fun _ => opaque (display_color layer)) final_rgba) final_rgba.

Definition paint (g : geometry) (master_owner_id : ndarray Z)
    (layers : list ServerLayer) : ndarray rgba :=
  foldl (paint_layer master_owner_id)
        (np_full (master_h g) (master_w g) transparent) layers.

Record output := {
  image : ndarray rgba;
  owners : ndarray Z;
  legend : list (string * color);
  box : Py.float * Py.float * Py.float * Py.float
}.

Section Run.
Variable py_float : string -> option Py.float.
Variable py_int : string -> option Z.

(** This script's [ColorScale] keeps the colour map only; of the
    table loaded here the entries are not used. *)
Definition create_composite_map (lcf : lcf_file)
    (kml_files : list (string * option MapLayer)) : list event * run output :=
  match load_lcf py_float py_int lcf with
  | inl e => ([PrintError e], Return)
  | inr color_scale =>
      let layers := discover kml_files in
      let log := PrintParsing :: (PrintFound ∘ kml_path ∘ base <$> layers) in
      match layers with
      | [] => (log, Return)
      | ref_layer :: others =>
          match canvas_geometry (base ref_layer) (base <$> others) with
          | inl e => (log, Raise e)
          | inr g =>
              let st := foldl (merge_layer color_scale g) (blank g) layers in
              (log ++ (PrintMerging ∘ kml_path ∘ base <$> layers)
                   ++ [PrintPainting],
               Saved {| image := paint g (master_owner_id st) layers;
                        owners := master_owner_id st;
                        legend := (fun l => (kml_path (base l), display_color l)) <$> layers;
                        box := (global_north g, global_south g,
                                global_east g, global_west g) |})
          end
      end
  end.
End Run.

End BestServer.

(** * composite_redundancy.py: a pixel needs two sources *)

Module Redundancy.

Definition OUTPUT_NAME : string := "composite_overlap".

(** The three buffers of the merge loop. *)
Record canvas := {
  master_loss : ndarray Py.float32;
  master_rgba : ndarray rgba;
  coverage_count : ndarray Z
}.

Definition blank (g : geometry) : canvas :=
  {| master_loss := np_full (master_h g) (master_w g) UNDEFINED_PATH_LOSS;
     master_rgba := np_full (master_h g) (master_w g) transparent;
     coverage_count := np_full (master_h g) (master_w g) 0 |}.

(** The body of the merge loop. The counter is a uint8 array: its
    [+= 1] wraps. The boolean index of the first update must have
    the shape of the slice, else numpy raises before any write. *)
Definition merge_layer (color_scale : ColorScale) (g : geometry)
    (st : canvas) (layer : MapLayer) : canvas :=
  match png layer with
  | None => st
  | Some src_arr =>
      match layer_extent g layer src_arr with
      | None => st
      | Some e =>
          let src_chunk := slice2 src_arr 0 (curr_h e) 0 (curr_w e) in
          let temp_loss := decode (color_map color_scale) src_chunk in
          let valid_signal_mask :=
            amap (fun t => Py.le t VALID_THRESHOLD_DB) temp_loss in
          let count_slice :=
            slice2 (coverage_count st) (y_start e) (y_end e) (x_start e) (x_end e) in
          if bool_decide (shape count_slice = shape valid_signal_mask) then
            let coverage_count' :=
              set_slice2 (coverage_count st) (y_start e) (y_end e) (x_start e) (x_end e)
                (np_where valid_signal_mask
                   (amap (fun n => Py.u8 (n + 1)) count_slice) count_slice) in
            let master_slice :=
              slice2 (master_loss st) (y_start e) (y_end e) (x_start e) (x_end e) in
            let better_signal_mask :=
              mask_and (amap2 Py.lt temp_loss master_slice) valid_signal_mask in
            let master_loss' :=
              set_slice2 (master_loss st) (y_start e) (y_end e) (x_start e) (x_end e)
                         (np_where better_signal_mask temp_loss master_slice) in
            let target_region :=
              slice2 (master_rgba st) (y_start e) (y_end e) (x_start e) (x_end e) in
            let src_chunk_rgba := amap opaque src_chunk in
            let target_region' :=
              np_where better_signal_mask src_chunk_rgba target_region in
            {| master_loss := master_loss';
               master_rgba :=
                 set_slice2 (master_rgba st) (y_start e) (y_end e) (x_start e) (x_end e)
                            target_region';
               coverage_count := coverage_count' |}
          else st
      end
  end.

(** The final filter: a pixel seen by too few layers is wiped. *)
Definition overlap_filter (st : canvas) : ndarray rgba :=
  let insufficient_overlap_mask :=
    amap (fun n => n <? MIN_OVERLAP_COUNT) (coverage_count st) in
  np_where insufficient_overlap_mask
           (amap (fun _ => transparent) (master_rgba st)) (master_rgba st).

Record output := {
  image : ndarray rgba;
  legend : list entry;
  box : Py.float * Py.float * Py.float * Py.float
}.

Definition discover (kml_files : list (string * option MapLayer)) : list MapLayer :=
  omap (fun '(kml, layer) => if contains OUTPUT_NAME kml then None else layer)
       kml_files.

Section Run.
Variable py_float : string -> option Py.float.
Variable py_int : string -> option Z.

Definition create_composite_map (lcf : lcf_file)
    (kml_files : list (string * option MapLayer)) : list event * run output :=
  match load_lcf py_float py_int lcf with
  | inl e => ([PrintError e], Return)
  | inr color_scale =>
      let layers := discover kml_files in
      let log := [PrintLoaded (size (color_map color_scale)); PrintParsing]
                   ++ (PrintFound ∘ kml_path <$> layers) in
      match layers with
      | [] => (log, Return)
      | ref_layer :: others =>
          match canvas_geometry ref_layer others with
          | inl e => (log, Raise e)
          | inr g =>
              let st := foldl (merge_layer color_scale g) (blank g) layers in
              (log ++ (PrintMerging ∘ kml_path <$> layers)
                   ++ [PrintFiltering; PrintSaving],
               Saved {| image := overlap_filter st;
                        legend := entries color_scale;
                        box := (global_north g, global_south g,
                                global_east g, global_west g) |})
          end
      end
  end.
End Run.

End Redundancy.

(** * Notions used to state the properties *)

(** The value a colour decodes to: the table's value for it, as a
    float32, or UNDEFINED. *)
Definition decode_value (cm : gmap color Py.float) (c : color) : Py.float32 :=
  match cm !! c with
  | Some db => Py.to_f32 db
  | None => UNDEFINED_PATH_LOSS
  end.

(** The window of the canvas that the slice
    [[y_start:y_end, x_start:x_end]] denotes: rows [r0 <= y < r1] and
    columns [c0 <= x < c1]. *)
Definition window (g : geometry) (e : extent) : Z * Z * Z * Z :=
  (slice_index (y_start e) (master_h g), slice_index (y_end e) (master_h g),
   slice_index (x_start e) (master_w g), slice_index (x_end e) (master_w g)).

(** The overlap region of a layer, pixel by pixel: [landing g layer y x]
    is the colour of the layer's pixel that falls on the canvas cell
    [(y, x)], and [None] when the cell is outside the layer's overlap
    region or the layer is skipped. *)
Definition landing (g : geometry) (layer : MapLayer) (y x : Z) : option color :=
  match png layer with
  | None => None
  | Some src_arr =>
      match layer_extent g layer src_arr with
      | None => None
      | Some e =>
          let '(r0, r1, c0, c1) := window g e in
          if (r1 - r0 =? curr_h e) && (c1 - c0 =? curr_w e)
             && (r0 <=? y) && (y <? r1) && (c0 <=? x) && (x <? c1)
          then Some (cell src_arr (y - r0) (x - c0))
          else None
      end
  end.

(** The buffers of a canvas have the shape the geometry gives. *)
Definition composite_ok (g : geometry) (st : Composite.canvas) : Prop :=
  shape (Composite.master_loss st) = (master_h g, master_w g)
  /\ shape (Composite.master_rgba st) = (master_h g, master_w g).

Definition server_ok (g : geometry) (st : BestServer.canvas) : Prop :=
  shape (BestServer.master_loss st) = (master_h g, master_w g)
  /\ shape (BestServer.master_owner_id st) = (master_h g, master_w g).

Definition redundancy_ok (g : geometry) (st : Redundancy.canvas) : Prop :=
  shape (Redundancy.master_loss st) = (master_h g, master_w g)
  /\ shape (Redundancy.master_rgba st) = (master_h g, master_w g)
  /\ shape (Redundancy.coverage_count st) = (master_h g, master_w g).


(** ** Concrete data for the examples *)

(** The float nearest to the fraction [n / d]: what Python reads from a
    decimal literal such as 0.8 = 8/10. *)
Definition ratio (n d : Z) : Py.float :=
  Py.fdiv (binary_normalize 53 1024 n 0 false) (binary_normalize 53 1024 d 0 false).

Definition f100 : Py.float32 := Py.to_f32 (ratio 100 1).
Definition f160 : Py.float32 := Py.to_f32 (ratio 160 1).

(** A reader of plain decimal literals ("90", "90.5") and of "nan", for
    the examples: on these texts it returns what [float()] returns. Like
    [float()] and [int()] it ignores white space around the number. *)
Definition digit (c : ascii) : option Z :=
  let n := N_of_ascii c in
  if ((48 <=? n) && (n <=? 57))%N then Some (Z.of_N n - 48) else None.

Fixpoint digits (acc : Z) (s : string) : option Z :=
  match s with
  | EmptyString => Some acc
  | String c s' =>
      match digit c with
      | Some d => digits (10 * acc + d) s'
      | None => None
      end
  end.

Fixpoint decimal (acc : Z) (s : string) : option (Z * Z) :=
  match s with
  | EmptyString => Some (acc, 1)
  | String "."%char frac =>
      match frac, digits acc frac with
      | String _ _, Some n => Some (n, 10 ^ Z.of_nat (String.length frac))
      | _, _ => None
      end
  | String c s' =>
      match digit c with
      | Some d => decimal (10 * acc + d) s'
      | None => None
      end
  end.

Definition demo_int (s : string) : option Z :=
  match strip s with
  | EmptyString => None
  | t => digits 0 t
  end.

Definition demo_float (s : string) : option Py.float :=
  let t := strip s in
  if bool_decide (t = "nan"%string) then Some S754_nan
  else
    match t with
    | EmptyString | String "."%char _ => None
    | _ => match decimal 0 t with
           | Some (n, d) => Some (ratio n d)
           | None => None
           end
    end.

(** A table with one colour at 100.0 dB and one at 80.0 dB, and images of
    a single pixel. *)
Definition red : color := (255, 0, 0).
Definition blue : color := (0, 0, 255).
Definition grey : color := (7, 7, 7).

Definition demo_lines : list string :=
  [ "# dB; R; G; B"; "100; 255; 0; 0"; "80: 0, 0, 255"; "" ]%string.

Definition demo_scale : ColorScale :=
  match load_lcf demo_float demo_int (Readable demo_lines) with
  | inr cs => cs
  | inl _ => empty_scale
  end.

(** A layer of one pixel of colour [c] over the box from (0, 0) to (1, 1). *)
Definition one_pixel (name : string) (c : color) : MapLayer :=
  {| kml_path := name;
     png := Some (np_full 1 1 c);
     north := ratio 1 1; south := S754_zero false;
     east := ratio 1 1; west := S754_zero false |}.

(** The geometry of a canvas of one pixel over that box. *)
Definition unit_geometry : geometry :=
  {| global_north := ratio 1 1; global_south := S754_zero false;
     global_east := ratio 1 1; global_west := S754_zero false;
     ppd_lat := ratio 1 1; ppd_lon := ratio 1 1;
     master_h := 1; master_w := 1 |}.

(** What the layers bring to the canvas cell [(y, x)], in the order of
    the merge loop: the decoded value and the colour of each layer whose
    overlap region holds the cell. *)
Definition values_at (cm : gmap color Py.float) (g : geometry)
    (layers : list MapLayer) (y x : Z) : list (Py.float32 * color) :=
  omap (fun layer =>
          match landing g layer y x with
          | Some c => Some (decode_value cm c, c)
          | None => None
          end) layers.

(** How many of these values meet the validity threshold. *)
Definition valid_count (values : list (Py.float32 * color)) : nat :=
  length (List.filter (fun v => Py.le v.1 VALID_THRESHOLD_DB) values).

(** One cell of the three buffers of composite_redundancy.py, and what
    one value brought to it makes of it. *)
Definition overlap_step (s : Py.float32 * rgba * Z) (v : Py.float32 * color)
  : Py.float32 * rgba * Z :=
  let '(loss, visual, count) := s in
  let '(t, c) := v in
  (if Py.lt t loss && Py.le t VALID_THRESHOLD_DB then t else loss,
   if Py.lt t loss && Py.le t VALID_THRESHOLD_DB then opaque c else visual,
   if Py.le t VALID_THRESHOLD_DB then Py.u8 (count + 1) else count).

Definition overlap_cell (st : Redundancy.canvas) (y x : Z) : Py.float32 * rgba * Z :=
  (cell (Redundancy.master_loss st) y x, cell (Redundancy.master_rgba st) y x,
   cell (Redundancy.coverage_count st) y x).

(** A table for the overlap examples: green is 90.0 dB, yellow 140.0 dB
    and white 160.0 dB. *)
Definition green : color := (0, 255, 0).
Definition yellow : color := (255, 255, 0).
Definition white : color := (255, 255, 255).

Definition overlap_lines : list string :=
  [ "90; 0; 255; 0"; "140; 255; 255; 0"; "160; 255; 255; 255" ]%string.

Definition overlap_scale : ColorScale :=
  match load_lcf demo_float demo_int (Readable overlap_lines) with
  | inr cs => cs
  | inl _ => empty_scale
  end.

(** A table that names red twice, and one with no entry at all. *)
Definition twice_lines : list string :=
  [ "100; 255; 0; 0"; "80; 255; 0; 0" ]%string.

Definition twice_scale : ColorScale :=
  match load_lcf demo_float demo_int (Readable twice_lines) with
  | inr cs => cs
  | inl _ => empty_scale
  end.

Definition no_entry_lines : list string :=
  [ "# dB; R; G; B"; "none; 255; 0; 0"; "100; 255" ]%string.

(** The table of the legend example, 120.0, 80.0 and 100.0 in this
    order, and a table with a NaN between 2.0 and 1.0. *)
Definition legend_lines : list string :=
  [ "120; 1; 1; 1"; "80; 2; 2; 2"; "100; 3; 3; 3" ]%string.

Definition legend_scale : ColorScale :=
  match load_lcf demo_float demo_int (Readable legend_lines) with
  | inr cs => cs
  | inl _ => empty_scale
  end.

Definition nan_lines : list string :=
  [ "2; 0; 0; 0"; "nan; 0; 0; 1"; "1; 0; 0; 2" ]%string.

Definition nan_scale : ColorScale :=
  match load_lcf demo_float demo_int (Readable nan_lines) with
  | inr cs => cs
  | inl _ => empty_scale
  end.

(** Ascending order of the legend: no entry is above one that follows
    it. *)
Definition ascending (a b : entry) : Prop :=
  Py.le (entry_db a) (entry_db b) = true.

(** The entries of a list whose value equals [v]. *)
Definition with_value (v : Py.float) (l : list entry) : list entry :=
  List.filter (fun e => Py.eq (entry_db e) v) l.

(** A reference layer of 1000 x 800 pixels over 1.0 x 0.8 degrees, and a
    second layer that stretches the union to 2.0 x 1.6 degrees. *)
Definition reference_layer : MapLayer :=
  {| kml_path := "ref.kml";
     png := Some (np_full 800 1000 red);
     north := ratio 8 10; south := S754_zero false;
     east := ratio 1 1; west := S754_zero false |}.

Definition far_layer : MapLayer :=
  {| kml_path := "far.kml";
     png := Some (np_full 800 1000 blue);
     north := ratio 16 10; south := ratio 8 10;
     east := ratio 2 1; west := ratio 1 1 |}.

(** The same two layers a tenth of a degree further north: the
    reference between the latitudes 0.1 and 0.9, the union between 0.1
    and 1.7. *)
Definition shifted_reference : MapLayer :=
  {| kml_path := "ref.kml";
     png := Some (np_full 800 1000 red);
     north := ratio 9 10; south := ratio 1 10;
     east := ratio 1 1; west := S754_zero false |}.

Definition shifted_far : MapLayer :=
  {| kml_path := "far.kml";
     png := Some (np_full 800 1000 blue);
     north := ratio 17 10; south := ratio 9 10;
     east := ratio 2 1; west := ratio 1 1 |}.

(** A table that gives red the value 10000.0, and a layer of
    100 x 100 pixels between the latitudes 1.0 and 2.2. *)
Definition beyond_lines : list string := [ "10000; 255; 0; 0" ]%string.

Definition beyond_scale : ColorScale :=
  match load_lcf demo_float demo_int (Readable beyond_lines) with
  | inr cs => cs
  | inl _ => empty_scale
  end.

Definition tall_layer : MapLayer :=
  {| kml_path := "tall.kml";
     png := Some (np_full 100 100 red);
     north := ratio 22 10; south := ratio 1 1;
     east := ratio 1 1; west := S754_zero false |}.

(** A raster of 2 x 2 pixels, red and grey above blue and red, over the
    box from (0, 0) to (1, 1). *)
Definition patch : ndarray color :=
  {| nrows := 2; ncols := 2;
     cell := fun y x =>
               if (y =? 0) && (x =? 1) then grey
               else if (y =? 1) && (x =? 0) then blue
               else red |}.

Definition patch_layer : MapLayer :=
  {| kml_path := "patch.kml";
     png := Some patch;
     north := ratio 1 1; south := S754_zero false;
     east := ratio 1 1; west := S754_zero false |}.

Definition patch_geometry : geometry :=
  {| global_north := ratio 1 1; global_south := S754_zero false;
     global_east := ratio 1 1; global_west := S754_zero false;
     ppd_lat := ratio 2 1; ppd_lon := ratio 2 1;
     master_h := 2; master_w := 2 |}.

(** What a run saved, if it came that far. *)
Definition saved {A : Type} (r : list event * run A) : option A :=
  match r.2 with
  | Saved out => Some out
  | _ => None
  end.

(** Descending order by [key], for the part of the sort already done,
    which is kept last entry first; and a key that is a number. *)
Definition descending (key : entry -> Py.float) (a b : entry) : Prop :=
  Py.le (key b) (key a) = true.
Definition is_number (key : entry -> Py.float) (e : entry) : Prop :=
  Py.is_nan (key e) = false.

(** ** Notions for the further properties *)

(** One cell of the two buffers of composite.py, and what one value
    brought to it makes of it. *)
Definition best_cell (st : Composite.canvas) (y x : Z) : Py.float32 * rgba :=
  (cell (Composite.master_loss st) y x, cell (Composite.master_rgba st) y x).

Definition best_step (s : Py.float32 * rgba) (v : Py.float32 * color)
  : Py.float32 * rgba :=
  if Py.lt v.1 s.1 && Py.ne v.1 UNDEFINED_PATH_LOSS then (v.1, opaque v.2) else s.

(** The update shared by the three merge rules, on one cell: a value
    that is below the value of the cell and passes the test [ok] takes
    the cell, with what it carries. *)
Definition gated_step {A B : Type} (ok : Py.float32 -> bool) (f : A -> B)
    (s : Py.float32 * B) (v : Py.float32 * A) : Py.float32 * B :=
  if Py.lt v.1 s.1 && ok v.1 then (v.1, f v.2) else s.

Definition valid (t : Py.float32) : bool := Py.le t VALID_THRESHOLD_DB.

(** What the layers of composite_best_server.py bring to the cell
    [(y, x)]: the decoded value and the number of each layer whose
    overlap region holds the cell. *)
Definition server_values_at (cm : gmap color Py.float) (g : geometry)
    (layers : list BestServer.ServerLayer) (y x : Z) : list (Py.float32 * Z) :=
  omap (fun layer =>
          match landing g (BestServer.base layer) y x with
          | Some c => Some (decode_value cm c, BestServer.index layer)
          | None => None
          end) layers.

Definition server_cell (st : BestServer.canvas) (y x : Z) : Py.float32 * Z :=
  (cell (BestServer.master_loss st) y x, cell (BestServer.master_owner_id st) y x).

(** What the merge loops of composite.py and composite_redundancy.py
    hold for one cell after the same values: before any valid value has
    come, the second still holds its initial cell and the first a value
    that is a number above the threshold; from the first valid value on,
    the two hold the same cell. *)
Definition tracks (seen : bool) (best : Py.float32 * rgba)
    (overlap : Py.float32 * rgba * Z) : Prop :=
  if seen
  then overlap.1 = best /\ valid best.1 = true
  else overlap.1 = (UNDEFINED_PATH_LOSS, transparent)
       /\ Py.is_nan best.1 = false /\ valid best.1 = false.

(** How many separators of [[;:,]] a line holds. *)
Fixpoint count_sep (s : string) : nat :=
  match s with
  | EmptyString => 0
  | String c s' => (if is_sep c then 1 else 0) + count_sep s'
  end.

(** A field that holds no separator and no white space, and a run of
    white space. *)
Fixpoint plain (s : string) : bool :=
  match s with
  | EmptyString => true
  | String c s' => negb (is_sep c) && negb (is_space c) && plain s'
  end.

Fixpoint all_space (s : string) : bool :=
  match s with
  | EmptyString => true
  | String c s' => is_space c && all_space s'
  end.

(** A line of four fields: each separator may be any of ; : , and may be
    followed by any white space. *)
Definition four_fields (p0 : string) (s1 : ascii) (w1 p1 : string)
    (s2 : ascii) (w2 p2 : string) (s3 : ascii) (w3 p3 : string) : string :=
  p0 +:+ String s1 (w1 +:+ p1 +:+ String s2 (w2 +:+ p2 +:+ String s3 (w3 +:+ p3))).

(** A layer whose four bounds are numbers. *)
Definition box_of_numbers (l : MapLayer) : Prop :=
  Py.is_nan (north l) = false /\ Py.is_nan (south l) = false
  /\ Py.is_nan (east l) = false /\ Py.is_nan (west l) = false.

(** The canvas of the reference layer and the layer to its north-east. *)
Definition union_geometry : geometry :=
  match canvas_geometry reference_layer [far_layer] with
  | inr g => g
  | inl _ => unit_geometry
  end.

(** A layer whose box has no height: north and south are both 1.0. *)
Definition flat_layer : MapLayer :=
  {| kml_path := "flat.kml";
     png := Some (np_full 1 1 red);
     north := ratio 1 1; south := ratio 1 1;
     east := ratio 1 1; west := S754_zero false |}.

(** A float that is not below zero: a zero, or a value of positive
    sign. A NaN counts, since [int()] raises on it and the layer is
    skipped. *)
Definition not_negative (x : spec_float) : bool :=
  match x with
  | S754_zero _ | S754_nan => true
  | S754_infinity s | S754_finite s _ _ => negb s
  end.

(** A bound as [float()] returns it: a binary64 value in normal form
    that is not a NaN. *)
Definition float_value (x : Py.float) : Prop :=
  valid_binary 53 1024 x = true /\ Py.is_nan x = false.

Definition box_of_values (l : MapLayer) : Prop :=
  float_value (north l) /\ float_value (south l)
  /\ float_value (east l) /\ float_value (west l).

(** The canvas geometry a run computes for the layers it found: from the
    first of them, the reference, and the union of the boxes. *)
Definition canvas_of (layers : list MapLayer) : option geometry :=
  match layers with
  | [] => None
  | ref_layer :: others =>
      match canvas_geometry ref_layer others with
      | inr g => Some g
      | inl _ => None
      end
  end.

(** * Properties *)

(** ** Floats *)

Lemma lt_irrefl (x : spec_float) : Py.lt x x = false.
Proof.
  unfold Py.lt, SFltb.
  destruct x as [s|s| |s m e]; simpl; try reflexivity; try (destruct s; reflexivity).
  destruct s; rewrite Z.compare_refl, Pos.compare_cont_refl; reflexivity.
Qed.

Lemma undefined_is_undefined : Py.ne UNDEFINED_PATH_LOSS UNDEFINED_PATH_LOSS = false.
Proof. reflexivity. Qed.

Lemma undefined_not_valid : Py.le UNDEFINED_PATH_LOSS VALID_THRESHOLD_DB = false.
Proof. reflexivity. Qed.

(** ** Arrays and decoding *)

Lemma decode_fold_shape (src_chunk : ndarray color) (l : list (color * Py.float))
    (acc : ndarray Py.float32) :
  shape acc = shape src_chunk ->
  shape (foldl (fun temp_loss '(key, db) =>
                  np_where (amap (fun px => bool_decide (px = key)) src_chunk)
                           (amap (fun _ => Py.to_f32 db) src_chunk) temp_loss)
               acc l) = shape src_chunk.
Proof.
  revert acc. induction l as [|[k db] l IH]; intros acc Hacc; simpl; [exact Hacc|].
  apply IH. reflexivity.
Qed.

Lemma decode_shape cm (src_chunk : ndarray color) :
  shape (decode cm src_chunk) = shape src_chunk.
Proof. unfold decode. apply decode_fold_shape. reflexivity. Qed.

Lemma decode_fold_cell (src_chunk : ndarray color) (y x : Z)
    (l : list (color * Py.float)) :
  NoDup l.*1 ->
  forall acc : ndarray Py.float32,
    let out := foldl (fun temp_loss '(key, db) =>
                        np_where (amap (fun px => bool_decide (px = key)) src_chunk)
                                 (amap (fun _ => Py.to_f32 db) src_chunk) temp_loss)
                     acc l in
    (forall db, (cell src_chunk y x, db) ∈ l -> cell out y x = Py.to_f32 db)
    /\ (cell src_chunk y x ∉ l.*1 -> cell out y x = cell acc y x).
Proof.
  induction l as [|[k db] l IH]; intros Hnd acc; simpl.
  - split; [intros db Hin; inversion Hin | reflexivity].
  - apply NoDup_cons in Hnd as [Hk Hnd].
    destruct (IH Hnd (np_where (amap (fun px => bool_decide (px = k)) src_chunk)
                               (amap (fun _ => Py.to_f32 db) src_chunk) acc))
      as [IHin IHout].
    split.
    + intros db' Hin. apply elem_of_cons in Hin as [Heq | Hin].
      * inversion Heq; subst. rewrite IHout by exact Hk.
        simpl. rewrite bool_decide_eq_true_2; reflexivity.
      * apply IHin, Hin.
    + intros Hnotin. apply not_elem_of_cons in Hnotin as [Hne Hnotin].
      rewrite IHout by exact Hnotin. simpl.
      rewrite bool_decide_eq_false_2; [reflexivity | exact Hne].
Qed.

(** Decoding is a lookup in the table, pixel by pixel. *)
Lemma decode_cell cm (src_chunk : ndarray color) (y x : Z) :
  cell (decode cm src_chunk) y x = decode_value cm (cell src_chunk y x).
Proof.
  unfold decode, decode_value.
  pose proof (decode_fold_cell src_chunk y x (map_to_list cm)
                (NoDup_fst_map_to_list cm)
                (np_full (nrows src_chunk) (ncols src_chunk) UNDEFINED_PATH_LOSS))
    as [Hin Hout].
  destruct (cm !! cell src_chunk y x) as [db|] eqn:Hlk.
  - apply Hin. apply elem_of_map_to_list. exact Hlk.
  - rewrite Hout; [reflexivity|].
    intros Hin'. apply list_elem_of_fmap in Hin' as [[k db] [Hk Hin']].
    simpl in Hk; subst k. apply elem_of_map_to_list in Hin'. congruence.
Qed.

(** ** Placement *)

Lemma layer_extent_bounds g layer src_arr e :
  layer_extent g layer src_arr = Some e ->
  0 < curr_h e <= nrows src_arr /\ 0 < curr_w e <= ncols src_arr
  /\ y_end e <= master_h g /\ x_end e <= master_w g.
Proof.
  unfold layer_extent.
  destruct (Py.int_of_float _) as [?|ys]; [discriminate|].
  destruct (Py.int_of_float _) as [?|xs]; [discriminate|].
  destruct (_ || _) eqn:Hskip; [discriminate|].
  intros [= <-]. apply orb_false_iff in Hskip as [Hh Hw].
  unfold curr_h, curr_w in *; simpl in *. lia.
Qed.

Lemma src_chunk_shape (src_arr : ndarray color) ch cw :
  0 < ch <= nrows src_arr -> 0 < cw <= ncols src_arr ->
  shape (slice2 src_arr 0 ch 0 cw) = (ch, cw).
Proof.
  intros Hh Hw. unfold shape, slice2, slice_index; simpl.
  repeat match goal with |- context [if ?b then _ else _] =>
    destruct b eqn:? end; f_equal; lia.
Qed.

Lemma src_chunk_cell (src_arr : ndarray color) ch cw y x :
  0 < ch <= nrows src_arr -> 0 < cw <= ncols src_arr ->
  cell (slice2 src_arr 0 ch 0 cw) y x = cell src_arr y x.
Proof.
  intros Hh Hw. unfold slice2, slice_index; simpl.
  replace (Z.min 0 (nrows src_arr)) with 0 by lia.
  replace (Z.min 0 (ncols src_arr)) with 0 by lia.
  reflexivity.
Qed.

(** The shape test of the merge loop, in terms of the window. *)
Lemma slice_shape_test {A B} (a : ndarray A) g e (temp : ndarray B) :
  shape a = (master_h g, master_w g) ->
  shape temp = (curr_h e, curr_w e) ->
  0 < curr_h e -> 0 < curr_w e ->
  bool_decide (shape (slice2 a (y_start e) (y_end e) (x_start e) (x_end e)) = shape temp)
  = let '(r0, r1, c0, c1) := window g e in
    (r1 - r0 =? curr_h e) && (c1 - c0 =? curr_w e).
Proof.
  intros Ha Ht Hh Hw. unfold shape in *. injection Ha as Hr Hc. rewrite Ht.
  unfold window, slice2; simpl. rewrite Hr, Hc.
  set (r0 := slice_index (y_start e) (master_h g)).
  set (r1 := slice_index (y_end e) (master_h g)).
  set (c0 := slice_index (x_start e) (master_w g)).
  set (c1 := slice_index (x_end e) (master_w g)).
  destruct (r1 - r0 =? curr_h e) eqn:E1; destruct (c1 - c0 =? curr_w e) eqn:E2; simpl.
  - apply bool_decide_eq_true_2. f_equal; lia.
  - apply bool_decide_eq_false_2. intros [= H1 H2]. lia.
  - apply bool_decide_eq_false_2. intros [= H1 H2]. lia.
  - apply bool_decide_eq_false_2. intros [= H1 H2]. lia.
Qed.

(** In the usual case, where the offsets are not negative, the window is
    the rectangle from [(y_start, x_start)] to [(y_end, x_end)]. *)
Lemma window_plain g layer src_arr e :
  layer_extent g layer src_arr = Some e ->
  0 <= y_start e -> 0 <= x_start e ->
  window g e = (y_start e, y_end e, x_start e, x_end e).
Proof.
  intros He Hy Hx. apply layer_extent_bounds in He.
  unfold window, slice_index, curr_h, curr_w in *.
  repeat match goal with |- context [if ?b then _ else _] =>
    destruct b eqn:? end; repeat f_equal; lia.
Qed.

(** So a layer lands where the script lays it: the pixel [(i, j)] of its
    raster on the cell [(y_start + i, x_start + j)] of the canvas. *)
Lemma landing_plain g layer src_arr e y x :
  png layer = Some src_arr ->
  layer_extent g layer src_arr = Some e ->
  0 <= y_start e -> 0 <= x_start e ->
  landing g layer y x
  = if (y_start e <=? y) && (y <? y_end e) && (x_start e <=? x) && (x <? x_end e)
    then Some (cell src_arr (y - y_start e) (x - x_start e))
    else None.
Proof.
  intros Hpng He Hy Hx. unfold landing. rewrite Hpng, He.
  rewrite (window_plain g layer src_arr e He Hy Hx).
  unfold curr_h, curr_w. rewrite !Z.eqb_refl. reflexivity.
Qed.

(** ** The merge rule of composite.py, pixel by pixel *)

Lemma back_in_window (r0 y : Z) : r0 + (y - r0) = y.
Proof. lia. Qed.

Lemma slice_index_0 (n : Z) : 0 <= n -> slice_index 0 n = 0.
Proof. intros Hn. unfold slice_index; simpl. lia. Qed.

Lemma composite_merge_cell cs g st layer y x :
  composite_ok g st ->
  let st' := Composite.merge_layer cs g st layer in
  composite_ok g st'
  /\ (cell (Composite.master_loss st') y x, cell (Composite.master_rgba st') y x) =
     match landing g layer y x with
     | Some c =>
         let t := decode_value (color_map cs) c in
         if Py.lt t (cell (Composite.master_loss st) y x)
            && Py.ne t UNDEFINED_PATH_LOSS
         then (t, opaque c)
         else (cell (Composite.master_loss st) y x, cell (Composite.master_rgba st) y x)
     | None => (cell (Composite.master_loss st) y x, cell (Composite.master_rgba st) y x)
     end.
Proof.
  intros [Hloss Hrgba]. unfold Composite.merge_layer, landing.
  destruct (png layer) as [src_arr|]; [|split; [split; assumption | reflexivity]].
  destruct (layer_extent g layer src_arr) as [e|] eqn:He;
    [|split; [split; assumption | reflexivity]].
  destruct (layer_extent_bounds _ _ _ _ He) as (Hh & Hw & _ & _).
  rewrite (slice_shape_test _ g e) by
    (try assumption; try lia; rewrite decode_shape; apply src_chunk_shape; assumption).
  unfold window.
  set (r0 := slice_index (y_start e) (master_h g)).
  set (r1 := slice_index (y_end e) (master_h g)).
  set (c0 := slice_index (x_start e) (master_w g)).
  set (c1 := slice_index (x_end e) (master_w g)).
  destruct ((r1 - r0 =? curr_h e) && (c1 - c0 =? curr_w e)) eqn:Hshape; simpl;
    [|split; [split; assumption | reflexivity]].
  split; [split; assumption|].
  injection Hloss as Hr Hc. injection Hrgba as Hr' Hc'.
  rewrite Hr, Hc, Hr', Hc'. fold r0 r1 c0 c1.
  destruct ((r0 <=? y) && (y <? r1) && (c0 <=? x) && (x <? c1)) eqn:Hin;
    [|reflexivity].
  rewrite !decode_cell, !src_chunk_cell by assumption.
  rewrite !slice_index_0 by lia.
  rewrite !back_in_window. simpl.
  unfold Py.ne.
  destruct (Py.lt _ _ && negb _); reflexivity.
Qed.

Lemma composite_ok_blank g : composite_ok g (Composite.blank g).
Proof. split; reflexivity. Qed.

Lemma composite_ok_loop cs g layers st :
  composite_ok g st -> composite_ok g (foldl (Composite.merge_layer cs g) st layers).
Proof.
  revert st. induction layers as [|l layers IH]; intros st Hok; simpl; [exact Hok|].
  apply IH. apply (composite_merge_cell cs g st l 0 0 Hok).
Qed.

(** ** The merge rule of composite_best_server.py, pixel by pixel *)

Lemma server_merge_cell cs g st layer y x :
  server_ok g st ->
  let st' := BestServer.merge_layer cs g st layer in
  server_ok g st'
  /\ (cell (BestServer.master_loss st') y x, cell (BestServer.master_owner_id st') y x) =
     match landing g (BestServer.base layer) y x with
     | Some c =>
         let t := decode_value (color_map cs) c in
         if Py.lt t (cell (BestServer.master_loss st) y x)
            && Py.le t VALID_THRESHOLD_DB
         then (t, Py.u8 (BestServer.index layer))
         else (cell (BestServer.master_loss st) y x,
               cell (BestServer.master_owner_id st) y x)
     | None => (cell (BestServer.master_loss st) y x,
                cell (BestServer.master_owner_id st) y x)
     end.
Proof.
  intros [Hloss Hown]. unfold BestServer.merge_layer, landing.
  destruct (png (BestServer.base layer)) as [src_arr|];
    [|split; [split; assumption | reflexivity]].
  destruct (layer_extent g (BestServer.base layer) src_arr) as [e|] eqn:He;
    [|split; [split; assumption | reflexivity]].
  destruct (layer_extent_bounds _ _ _ _ He) as (Hh & Hw & _ & _).
  rewrite (slice_shape_test _ g e) by
    (try assumption; try lia; rewrite decode_shape; apply src_chunk_shape; assumption).
  unfold window.
  set (r0 := slice_index (y_start e) (master_h g)).
  set (r1 := slice_index (y_end e) (master_h g)).
  set (c0 := slice_index (x_start e) (master_w g)).
  set (c1 := slice_index (x_end e) (master_w g)).
  destruct ((r1 - r0 =? curr_h e) && (c1 - c0 =? curr_w e)) eqn:Hshape; simpl;
    [|split; [split; assumption | reflexivity]].
  split; [split; assumption|].
  injection Hloss as Hr Hc. injection Hown as Hr' Hc'.
  rewrite Hr, Hc, Hr', Hc'. fold r0 r1 c0 c1.
  destruct ((r0 <=? y) && (y <? r1) && (c0 <=? x) && (x <? c1)) eqn:Hin;
    [|reflexivity].
  rewrite !decode_cell, !src_chunk_cell by assumption.
  rewrite !back_in_window. simpl.
  destruct (Py.lt _ _ && Py.le _ _); reflexivity.
Qed.

Lemma server_ok_blank g : server_ok g (BestServer.blank g).
Proof. split; reflexivity. Qed.

Lemma server_ok_loop cs g layers st :
  server_ok g st -> server_ok g (foldl (BestServer.merge_layer cs g) st layers).
Proof.
  revert st. induction layers as [|l layers IH]; intros st Hok; simpl; [exact Hok|].
  apply IH. apply (server_merge_cell cs g st l 0 0 Hok).
Qed.

(** ** The merge rule of composite_redundancy.py, pixel by pixel *)

Lemma redundancy_merge_cell cs g st layer y x :
  redundancy_ok g st ->
  let st' := Redundancy.merge_layer cs g st layer in
  redundancy_ok g st'
  /\ (cell (Redundancy.master_loss st') y x, cell (Redundancy.master_rgba st') y x) =
     match landing g layer y x with
     | Some c =>
         let t := decode_value (color_map cs) c in
         if Py.lt t (cell (Redundancy.master_loss st) y x)
            && Py.le t VALID_THRESHOLD_DB
         then (t, opaque c)
         else (cell (Redundancy.master_loss st) y x,
               cell (Redundancy.master_rgba st) y x)
     | None => (cell (Redundancy.master_loss st) y x,
                cell (Redundancy.master_rgba st) y x)
     end
  /\ cell (Redundancy.coverage_count st') y x =
     match landing g layer y x with
     | Some c =>
         if Py.le (decode_value (color_map cs) c) VALID_THRESHOLD_DB
         then Py.u8 (cell (Redundancy.coverage_count st) y x + 1)
         else cell (Redundancy.coverage_count st) y x
     | None => cell (Redundancy.coverage_count st) y x
     end.
Proof.
  intros (Hloss & Hrgba & Hcount). unfold Redundancy.merge_layer, landing.
  destruct (png layer) as [src_arr|];
    [|split; [repeat split; assumption | split; reflexivity]].
  destruct (layer_extent g layer src_arr) as [e|] eqn:He;
    [|split; [repeat split; assumption | split; reflexivity]].
  destruct (layer_extent_bounds _ _ _ _ He) as (Hh & Hw & _ & _).
  rewrite (slice_shape_test _ g e) by
    (try assumption; try lia;
     change (shape (decode (color_map cs) (slice2 src_arr 0 (curr_h e) 0 (curr_w e)))
             = (curr_h e, curr_w e));
     rewrite decode_shape; apply src_chunk_shape; assumption).
  unfold window.
  set (r0 := slice_index (y_start e) (master_h g)).
  set (r1 := slice_index (y_end e) (master_h g)).
  set (c0 := slice_index (x_start e) (master_w g)).
  set (c1 := slice_index (x_end e) (master_w g)).
  destruct ((r1 - r0 =? curr_h e) && (c1 - c0 =? curr_w e)) eqn:Hshape; simpl;
    [|split; [repeat split; assumption | split; reflexivity]].
  split; [repeat split; assumption|].
  injection Hloss as Hr Hc. injection Hrgba as Hr' Hc'. injection Hcount as Hr'' Hc''.
  rewrite Hr, Hc, Hr', Hc', Hr'', Hc''. fold r0 r1 c0 c1.
  destruct ((r0 <=? y) && (y <? r1) && (c0 <=? x) && (x <? c1)) eqn:Hin;
    [|split; reflexivity].
  rewrite !decode_cell, !src_chunk_cell by assumption.
  rewrite !slice_index_0 by lia.
  rewrite !back_in_window. simpl.
  split; [destruct (Py.lt _ _ && Py.le _ _); reflexivity|].
  destruct (Py.le _ _); reflexivity.
Qed.

Lemma redundancy_ok_blank g : redundancy_ok g (Redundancy.blank g).
Proof. repeat split; reflexivity. Qed.

Lemma redundancy_ok_loop cs g layers st :
  redundancy_ok g st -> redundancy_ok g (foldl (Redundancy.merge_layer cs g) st layers).
Proof.
  revert st. induction layers as [|l layers IH]; intros st Hok; simpl; [exact Hok|].
  apply IH. apply (redundancy_merge_cell cs g st l 0 0 Hok).
Qed.

(** The order [<] of floats is transitive. *)
Lemma lt_trans (x y z : spec_float) :
  Py.lt x y = true -> Py.lt y z = true -> Py.lt x z = true.
Proof.
  unfold Py.lt, SFltb, SFcompare.
  destruct x as [a|a| |a m1 e1], y as [b|b| |b m2 e2], z as [c|c| |c m3 e3];
    try destruct a; try destruct b; try destruct c; simpl; try congruence;
    change (Pos.compare_cont Eq) with Pos.compare;
    repeat match goal with
      | |- context [(?a ?= ?b)%Z] => destruct (Z.compare_spec a b)
      | |- context [(?a ?= ?b)%positive] => destruct (Pos.compare_spec a b)
      end; simpl; try congruence; try lia.
Qed.

(** ** The fixtures are what they are meant to be *)

Example demo_scale_map :
  color_map demo_scale = <[blue := ratio 80 1]> (<[red := ratio 100 1]> ∅)
  /\ entries demo_scale = [(ratio 80 1, 0, 0, 255); (ratio 100 1, 255, 0, 0)].
Proof. split; vm_compute; reflexivity. Qed.

Example unit_geometry_computed :
  canvas_geometry (one_pixel "a.kml" red) [one_pixel "b.kml" blue] = inr unit_geometry.
Proof. vm_compute. reflexivity. Qed.

Example one_pixel_lands :
  landing unit_geometry (one_pixel "a.kml" red) 0 0 = Some red.
Proof. vm_compute. reflexivity. Qed.

Example undefined_value :
  UNDEFINED_PATH_LOSS = Py.to_f32 (ratio 9999 1)
  /\ VALID_THRESHOLD_DB = Py.to_f32 (ratio 150 1).
Proof. split; vm_compute; reflexivity. Qed.

(** ** C1: the best-signal merge rule *)

(** A value that does not win against the canvas does not win later:
    the canvas only ever goes down. *)
Lemma composite_still_beaten cs g y x (t : Py.float32) layers st :
  composite_ok g st ->
  Py.lt t (cell (Composite.master_loss st) y x) && Py.ne t UNDEFINED_PATH_LOSS = false ->
  let st' := foldl (Composite.merge_layer cs g) st layers in
  Py.lt t (cell (Composite.master_loss st') y x) && Py.ne t UNDEFINED_PATH_LOSS = false.
Proof.
  revert st. induction layers as [|l layers IH]; intros st Hok Hbeaten; simpl;
    [exact Hbeaten|].
  destruct (composite_merge_cell cs g st l y x Hok) as [Hok' Hcell].
  apply IH; [exact Hok'|].
  destruct (landing g l y x) as [c|]; simpl in Hcell.
  - destruct (Py.lt (decode_value (color_map cs) c) _ && _) eqn:Hwin;
      injection Hcell as Hl _; rewrite Hl; [|exact Hbeaten].
    apply andb_true_iff in Hwin as [Hlt _].
    destruct (Py.lt t (decode_value (color_map cs) c)) eqn:Htc; [|reflexivity].
    rewrite (lt_trans _ _ _ Htc Hlt) in Hbeaten. exact Hbeaten.
  - injection Hcell as Hl _. rewrite Hl. exact Hbeaten.
Qed.

(** C1. In the merge loop of composite.py, at every pixel of a layer's
    overlap region the canvas value and the visual are overwritten, with
    the incoming value and the incoming colour made opaque, exactly when
    the incoming value is strictly less than the canvas value and is not
    UNDEFINED; every other pixel is left as it was. And a layer that
    decodes to exactly the value of a layer processed before it leaves
    the pixel as it found it. *)
Theorem best_signal_merge_rule (cs : ColorScale) (g : geometry) (done : list MapLayer) :
  let st := foldl (Composite.merge_layer cs g) (Composite.blank g) done in
  (forall layer y x,
      let st' := Composite.merge_layer cs g st layer in
      match landing g layer y x with
      | Some c =>
          let t := decode_value (color_map cs) c in
          if Py.lt t (cell (Composite.master_loss st) y x)
             && Py.ne t UNDEFINED_PATH_LOSS
          then cell (Composite.master_loss st') y x = t
               /\ cell (Composite.master_rgba st') y x = opaque c
          else cell (Composite.master_loss st') y x = cell (Composite.master_loss st) y x
               /\ cell (Composite.master_rgba st') y x = cell (Composite.master_rgba st) y x
      | None =>
          cell (Composite.master_loss st') y x = cell (Composite.master_loss st) y x
          /\ cell (Composite.master_rgba st') y x = cell (Composite.master_rgba st) y x
      end)
  /\ (forall first between second y x c1 c2,
         landing g first y x = Some c1 ->
         landing g second y x = Some c2 ->
         decode_value (color_map cs) c1 = decode_value (color_map cs) c2 ->
         let before := foldl (Composite.merge_layer cs g) st (first :: between) in
         let after := Composite.merge_layer cs g before second in
         cell (Composite.master_loss after) y x = cell (Composite.master_loss before) y x
         /\ cell (Composite.master_rgba after) y x = cell (Composite.master_rgba before) y x).
Proof.
  intros st.
  assert (Hok : composite_ok g st) by (apply composite_ok_loop, composite_ok_blank).
  split.
  - intros layer y x st'.
    destruct (composite_merge_cell cs g st layer y x Hok) as [_ Hcell].
    fold st' in Hcell.
    destruct (landing g layer y x) as [c|]; simpl in *.
    + destruct (Py.lt _ _ && Py.ne _ _); injection Hcell as -> ->; split; reflexivity.
    + injection Hcell as -> ->; split; reflexivity.
  - intros first between second y x c1 c2 H1 H2 Hsame before after.
    set (t := decode_value (color_map cs) c2).
    assert (Hbeaten : Py.lt t (cell (Composite.master_loss before) y x)
                      && Py.ne t UNDEFINED_PATH_LOSS = false).
    { unfold before. simpl.
      destruct (composite_merge_cell cs g st first y x Hok) as [Hok1 Hcell].
      apply composite_still_beaten; [exact Hok1|].
      rewrite H1 in Hcell. simpl in Hcell. rewrite Hsame in Hcell. fold t in Hcell.
      destruct (Py.lt t (cell (Composite.master_loss st) y x) && Py.ne t _) eqn:Hwin;
        injection Hcell as Hl _; rewrite Hl; [|exact Hwin].
      rewrite lt_irrefl. reflexivity. }
    assert (Hokb : composite_ok g before).
    { unfold before. apply composite_ok_loop. exact Hok. }
    destruct (composite_merge_cell cs g before second y x Hokb) as [_ Hcell].
    fold after in Hcell. rewrite H2 in Hcell. simpl in Hcell. fold t in Hcell.
    rewrite Hbeaten in Hcell. injection Hcell as -> ->. split; reflexivity.
Qed.

(** Two layers of one red pixel (100.0 dB) on the same cell: the second
    changes nothing. *)
Lemma best_signal_merge_rule_witness :
  let st1 := foldl (Composite.merge_layer demo_scale unit_geometry)
                   (Composite.blank unit_geometry) [one_pixel "a.kml" red] in
  let st2 := Composite.merge_layer demo_scale unit_geometry st1 (one_pixel "b.kml" red) in
  cell (Composite.master_loss st1) 0 0 = f100
  /\ cell (Composite.master_rgba st1) 0 0 = (255, 0, 0, 255)
  /\ cell (Composite.master_loss st2) 0 0 = cell (Composite.master_loss st1) 0 0
  /\ cell (Composite.master_rgba st2) 0 0 = cell (Composite.master_rgba st1) 0 0.
Proof.
  split; [vm_compute; reflexivity|]. split; [vm_compute; reflexivity|].
  exact (proj2 (best_signal_merge_rule demo_scale unit_geometry [])
           (one_pixel "a.kml" red) [] (one_pixel "b.kml" red) 0 0 red red
           eq_refl eq_refl eq_refl).
Defined.

(** ** C2: a colour that is not in the table *)

(** C2. A pixel whose colour is absent from the table decodes to
    UNDEFINED, and in the merge loop of each of the three scripts such a
    pixel leaves the best value as it was, and with it the visual
    (composite.py, composite_redundancy.py), the owner
    (composite_best_server.py) and the overlap counter
    (composite_redundancy.py). *)
Theorem absent_color_never_wins (cs : ColorScale) (g : geometry)
    (src_chunk : ndarray color) (y x : Z) (c : color) :
  color_map cs !! c = None ->
  (cell src_chunk y x = c ->
   cell (decode (color_map cs) src_chunk) y x = UNDEFINED_PATH_LOSS)
  /\ (forall done layer,
         landing g layer y x = Some c ->
         let st := foldl (Composite.merge_layer cs g) (Composite.blank g) done in
         let st' := Composite.merge_layer cs g st layer in
         cell (Composite.master_loss st') y x = cell (Composite.master_loss st) y x
         /\ cell (Composite.master_rgba st') y x = cell (Composite.master_rgba st) y x)
  /\ (forall done layer,
         landing g (BestServer.base layer) y x = Some c ->
         let st := foldl (BestServer.merge_layer cs g) (BestServer.blank g) done in
         let st' := BestServer.merge_layer cs g st layer in
         cell (BestServer.master_loss st') y x = cell (BestServer.master_loss st) y x
         /\ cell (BestServer.master_owner_id st') y x
            = cell (BestServer.master_owner_id st) y x)
  /\ (forall done layer,
         landing g layer y x = Some c ->
         let st := foldl (Redundancy.merge_layer cs g) (Redundancy.blank g) done in
         let st' := Redundancy.merge_layer cs g st layer in
         cell (Redundancy.master_loss st') y x = cell (Redundancy.master_loss st) y x
         /\ cell (Redundancy.master_rgba st') y x = cell (Redundancy.master_rgba st) y x
         /\ cell (Redundancy.coverage_count st') y x
            = cell (Redundancy.coverage_count st) y x).
Proof.
  intros Habsent.
  assert (Hdec : decode_value (color_map cs) c = UNDEFINED_PATH_LOSS).
  { unfold decode_value. rewrite Habsent. reflexivity. }
  split; [|split; [|split]].
  - intros Hc. rewrite decode_cell, Hc. exact Hdec.
  - intros done layer Hland st st'.
    assert (Hok : composite_ok g st) by (apply composite_ok_loop, composite_ok_blank).
    destruct (composite_merge_cell cs g st layer y x Hok) as [_ Hcell].
    fold st' in Hcell. rewrite Hland in Hcell. simpl in Hcell.
    rewrite Hdec, undefined_is_undefined, andb_false_r in Hcell.
    injection Hcell as -> ->. split; reflexivity.
  - intros done layer Hland st st'.
    assert (Hok : server_ok g st) by (apply server_ok_loop, server_ok_blank).
    destruct (server_merge_cell cs g st layer y x Hok) as [_ Hcell].
    fold st' in Hcell. rewrite Hland in Hcell. simpl in Hcell.
    rewrite Hdec, undefined_not_valid, andb_false_r in Hcell.
    injection Hcell as -> ->. split; reflexivity.
  - intros done layer Hland st st'.
    assert (Hok : redundancy_ok g st) by (apply redundancy_ok_loop, redundancy_ok_blank).
    destruct (redundancy_merge_cell cs g st layer y x Hok) as (_ & Hcell & Hcount).
    fold st' in Hcell, Hcount. rewrite Hland in Hcell, Hcount. simpl in Hcell.
    rewrite Hdec, undefined_not_valid in Hcount.
    rewrite Hdec, undefined_not_valid, andb_false_r in Hcell.
    injection Hcell as -> ->. rewrite Hcount. repeat split; reflexivity.
Qed.

(** A grey pixel, which the table does not know, laid over a red one. *)
Lemma absent_color_never_wins_witness :
  color_map demo_scale !! grey = None
  /\ cell (decode (color_map demo_scale) (np_full 1 1 grey)) 0 0 = UNDEFINED_PATH_LOSS
  /\ (let st := foldl (Composite.merge_layer demo_scale unit_geometry)
                      (Composite.blank unit_geometry) [one_pixel "a.kml" red] in
      let st' := Composite.merge_layer demo_scale unit_geometry st (one_pixel "b.kml" grey) in
      cell (Composite.master_loss st') 0 0 = f100
      /\ cell (Composite.master_rgba st') 0 0 = (255, 0, 0, 255)).
Proof.
  assert (Habsent : color_map demo_scale !! grey = None) by (vm_compute; reflexivity).
  split; [exact Habsent|].
  destruct (absent_color_never_wins demo_scale unit_geometry (np_full 1 1 grey) 0 0 grey
              Habsent) as (Hdec & Hbest & _ & _).
  split; [exact (Hdec eq_refl)|].
  destruct (Hbest [one_pixel "a.kml" red] (one_pixel "b.kml" grey) eq_refl) as [Hl Hv].
  cbv zeta. rewrite Hl, Hv. split; vm_compute; reflexivity.
Defined.

(** ** C3 and C10: overlap consensus *)

(** The merge loop of composite_redundancy.py, seen from one cell. *)
Lemma redundancy_loop_cell cs g y x layers st :
  redundancy_ok g st ->
  overlap_cell (foldl (Redundancy.merge_layer cs g) st layers) y x
  = foldl overlap_step (overlap_cell st y x) (values_at (color_map cs) g layers y x).
Proof.
  revert st. induction layers as [|l layers IH]; intros st Hok; simpl; [reflexivity|].
  destruct (redundancy_merge_cell cs g st l y x Hok) as (Hok' & Hcell & Hcount).
  rewrite (IH _ Hok'). unfold values_at; simpl.
  destruct (landing g l y x) as [c|]; simpl.
  - f_equal. unfold overlap_cell, overlap_step. rewrite Hcount. cbv zeta in Hcell.
    destruct (Py.lt _ _ && Py.le _ _); injection Hcell as -> ->; reflexivity.
  - f_equal. unfold overlap_cell. rewrite Hcount.
    injection Hcell as -> ->; reflexivity.
Qed.

Lemma u8_range (n : Z) : 0 <= Py.u8 n < 256.
Proof. unfold Py.u8. apply Z.mod_pos_bound. lia. Qed.

Lemma overlap_steps_count values : forall s,
  0 <= s.2 < 256 ->
  (foldl overlap_step s values).2
  = (s.2 + Z.of_nat (valid_count values)) mod 256.
Proof.
  induction values as [|[t c] values IH]; intros [[loss visual] count] Hrange;
    simpl in *.
  - unfold valid_count; simpl. rewrite Z.add_0_r, Z.mod_small; [reflexivity | lia].
  - rewrite IH.
    + unfold valid_count; simpl. destruct (Py.le t VALID_THRESHOLD_DB); simpl.
      * unfold Py.u8. rewrite Zplus_mod_idemp_l. f_equal. lia.
      * reflexivity.
    + simpl. destruct (Py.le t VALID_THRESHOLD_DB); [apply u8_range | exact Hrange].
Qed.

Lemma redundancy_count cs g layers y x :
  cell (Redundancy.coverage_count
          (foldl (Redundancy.merge_layer cs g) (Redundancy.blank g) layers)) y x
  = Z.of_nat (valid_count (values_at (color_map cs) g layers y x)) mod 256.
Proof.
  pose proof (redundancy_loop_cell cs g y x layers (Redundancy.blank g)
                (redundancy_ok_blank g)) as Hloop.
  apply (f_equal snd) in Hloop. simpl in Hloop. rewrite Hloop.
  rewrite overlap_steps_count; simpl; [reflexivity | lia].
Qed.





(** C10. The overlap counter of composite_redundancy.py is a uint8: at
    the end of the merge loop it holds the number of layers that met the
    validity threshold at the pixel, modulo 256. Where 256 layers meet
    it the counter is back at 0 and the final filter makes the pixel
    transparent. *)
Theorem overlap_counter_wraps (cs : ColorScale) (g : geometry)
    (layers : list MapLayer) (y x : Z) :
  let st := foldl (Redundancy.merge_layer cs g) (Redundancy.blank g) layers in
  let n := valid_count (values_at (color_map cs) g layers y x) in
  cell (Redundancy.coverage_count st) y x = Z.of_nat n mod 256
  /\ (n = 256%nat ->
      cell (Redundancy.coverage_count st) y x = 0
      /\ cell (Redundancy.overlap_filter st) y x = transparent).
Proof.
  intros st n.
  assert (Hcount : cell (Redundancy.coverage_count st) y x = Z.of_nat n mod 256)
    by apply redundancy_count.
  split; [exact Hcount|].
  intros Hn. rewrite Hn in Hcount. change (Z.of_nat 256 mod 256) with 0 in Hcount.
  split; [exact Hcount|].
  unfold Redundancy.overlap_filter; simpl. rewrite Hcount. reflexivity.
Qed.

(** 256 green layers (90.0 dB) over one pixel. *)
Lemma overlap_counter_wraps_witness :
  let layers := replicate 256 (one_pixel "a.kml" green) in
  let st := foldl (Redundancy.merge_layer overlap_scale unit_geometry)
                  (Redundancy.blank unit_geometry) layers in
  valid_count (values_at (color_map overlap_scale) unit_geometry layers 0 0) = 256%nat
  /\ cell (Redundancy.coverage_count st) 0 0 = 0
  /\ cell (Redundancy.overlap_filter st) 0 0 = transparent.
Proof.
  intros layers st.
  assert (Hn : valid_count (values_at (color_map overlap_scale) unit_geometry layers 0 0)
               = 256%nat) by (vm_compute; reflexivity).
  split; [exact Hn|].
  exact (proj2 (overlap_counter_wraps overlap_scale unit_geometry layers 0 0) Hn).
Defined.

(** ** C4: the best server *)

(** The layers are numbered from 1. *)
Lemma discover_step_index acc found :
  0 <= acc.1 -> Forall (fun l => 1 <= BestServer.index l) acc.2 ->
  0 <= (BestServer.discover_step acc found).1
  /\ Forall (fun l => 1 <= BestServer.index l) (BestServer.discover_step acc found).2.
Proof.
  destruct acc as [i layers], found as [kml layer]; simpl. intros Hi Hall.
  destruct (contains "composite" kml); [split; assumption|].
  destruct layer as [l|]; [|split; assumption].
  simpl. split; [lia|]. apply Forall_app. split; [exact Hall|].
  apply Forall_singleton. simpl. lia.
Qed.

Lemma discover_index kml_files :
  Forall (fun l => 1 <= BestServer.index l) (BestServer.discover kml_files).
Proof.
  unfold BestServer.discover.
  assert (H : forall acc, 0 <= acc.1 ->
                Forall (fun l => 1 <= BestServer.index l) acc.2 ->
                Forall (fun l => 1 <= BestServer.index l)
                       (foldl BestServer.discover_step acc kml_files).2).
  { induction kml_files as [|f fs IH]; intros acc Hi Hall; simpl; [exact Hall|].
    destruct (discover_step_index acc f Hi Hall) as [Hi' Hall']. apply IH; assumption. }
  apply H; simpl; [lia | constructor].
Qed.

(** A cell that no layer owns is not painted. *)
Lemma paint_unowned (owner : ndarray Z) (y x : Z) layers :
  Forall (fun l => cell owner y x <> BestServer.index l) layers ->
  forall final,
    cell (foldl (BestServer.paint_layer owner) final layers) y x = cell final y x.
Proof.
  induction 1 as [|l layers Hl _ IH]; intros final; simpl; [reflexivity|].
  rewrite IH. simpl. rewrite bool_decide_eq_false_2; [reflexivity | exact Hl].
Qed.

Lemma f160_not_valid : Py.le f160 VALID_THRESHOLD_DB = false.
Proof. vm_compute. reflexivity. Qed.

(** C4. In the merge loop of composite_best_server.py the value and the
    owner of a pixel are overwritten, with the incoming value and the
    incoming layer's number, exactly when the incoming value is strictly
    less than the canvas value and at most VALID_THRESHOLD_DB. A layer
    that decodes to 160.0 at a pixel therefore claims nothing there; and
    when every layer that covers the pixel decodes to 160.0 there, the
    pixel ends with owner 0, the value of "no owner", and is fully
    transparent in the painted image. *)
Theorem best_server_rule (cs : ColorScale) (g : geometry) (y x : Z) :
  (forall done layer,
      let st := foldl (BestServer.merge_layer cs g) (BestServer.blank g) done in
      let st' := BestServer.merge_layer cs g st layer in
      match landing g (BestServer.base layer) y x with
      | Some c =>
          let t := decode_value (color_map cs) c in
          if Py.lt t (cell (BestServer.master_loss st) y x)
             && Py.le t VALID_THRESHOLD_DB
          then cell (BestServer.master_loss st') y x = t
               /\ cell (BestServer.master_owner_id st') y x
                  = Py.u8 (BestServer.index layer)
          else cell (BestServer.master_loss st') y x = cell (BestServer.master_loss st) y x
               /\ cell (BestServer.master_owner_id st') y x
                  = cell (BestServer.master_owner_id st) y x
      | None =>
          cell (BestServer.master_loss st') y x = cell (BestServer.master_loss st) y x
          /\ cell (BestServer.master_owner_id st') y x
             = cell (BestServer.master_owner_id st) y x
      end)
  /\ (forall done layer c,
         landing g (BestServer.base layer) y x = Some c ->
         decode_value (color_map cs) c = f160 ->
         let st := foldl (BestServer.merge_layer cs g) (BestServer.blank g) done in
         let st' := BestServer.merge_layer cs g st layer in
         cell (BestServer.master_loss st') y x = cell (BestServer.master_loss st) y x
         /\ cell (BestServer.master_owner_id st') y x
            = cell (BestServer.master_owner_id st) y x)
  /\ (forall kml_files,
         let layers := BestServer.discover kml_files in
         (forall layer c,
             layer ∈ layers ->
             landing g (BestServer.base layer) y x = Some c ->
             decode_value (color_map cs) c = f160) ->
         let st := foldl (BestServer.merge_layer cs g) (BestServer.blank g) layers in
         cell (BestServer.master_owner_id st) y x = 0
         /\ cell (BestServer.paint g (BestServer.master_owner_id st) layers) y x
            = transparent).
Proof.
  assert (Hrule : forall st layer, server_ok g st ->
            let st' := BestServer.merge_layer cs g st layer in
            match landing g (BestServer.base layer) y x with
            | Some c =>
                let t := decode_value (color_map cs) c in
                if Py.lt t (cell (BestServer.master_loss st) y x)
                   && Py.le t VALID_THRESHOLD_DB
                then cell (BestServer.master_loss st') y x = t
                     /\ cell (BestServer.master_owner_id st') y x
                        = Py.u8 (BestServer.index layer)
                else cell (BestServer.master_loss st') y x
                     = cell (BestServer.master_loss st) y x
                     /\ cell (BestServer.master_owner_id st') y x
                        = cell (BestServer.master_owner_id st) y x
            | None =>
                cell (BestServer.master_loss st') y x = cell (BestServer.master_loss st) y x
                /\ cell (BestServer.master_owner_id st') y x
                   = cell (BestServer.master_owner_id st) y x
            end).
  { intros st layer Hok st'.
    destruct (server_merge_cell cs g st layer y x Hok) as [_ Hcell].
    fold st' in Hcell.
    destruct (landing g (BestServer.base layer) y x) as [c|]; cbv zeta in *.
    - destruct (Py.lt _ _ && Py.le _ _); injection Hcell as -> ->; split; reflexivity.
    - injection Hcell as -> ->; split; reflexivity. }
  assert (Hnone : forall st layer c, server_ok g st ->
            landing g (BestServer.base layer) y x = Some c ->
            decode_value (color_map cs) c = f160 ->
            let st' := BestServer.merge_layer cs g st layer in
            cell (BestServer.master_loss st') y x = cell (BestServer.master_loss st) y x
            /\ cell (BestServer.master_owner_id st') y x
               = cell (BestServer.master_owner_id st) y x).
  { intros st layer c Hok Hland Hdec st'.
    pose proof (Hrule st layer Hok) as H. fold st' in H.
    rewrite Hland in H. cbv zeta in H.
    rewrite Hdec, f160_not_valid, andb_false_r in H. exact H. }
  split; [|split].
  - intros done layer. apply Hrule, server_ok_loop, server_ok_blank.
  - intros done layer c Hland Hdec. apply (Hnone _ layer c); try assumption.
    apply server_ok_loop, server_ok_blank.
  - intros kml_files layers Hall st.
    assert (Howner : cell (BestServer.master_owner_id st) y x = 0).
    { unfold st.
      assert (H : forall ls st0, server_ok g st0 ->
                (forall layer c, layer ∈ ls ->
                    landing g (BestServer.base layer) y x = Some c ->
                    decode_value (color_map cs) c = f160) ->
                cell (BestServer.master_owner_id
                        (foldl (BestServer.merge_layer cs g) st0 ls)) y x
                = cell (BestServer.master_owner_id st0) y x).
      { induction ls as [|l ls IH]; intros st0 Hok Hls; simpl; [reflexivity|].
        rewrite IH.
        - pose proof (Hrule st0 l Hok) as H. cbv zeta in H.
          destruct (landing g (BestServer.base l) y x) as [c|] eqn:Hland.
          + rewrite (Hls l c (list_elem_of_here _ _) Hland), f160_not_valid,
              andb_false_r in H. apply H.
          + apply H.
        - apply (server_merge_cell cs g st0 l 0 0 Hok).
        - intros layer c Hin. apply Hls. apply list_elem_of_further, Hin. }
      rewrite H; [reflexivity | apply server_ok_blank | exact Hall]. }
    split; [exact Howner|].
    unfold BestServer.paint. rewrite paint_unowned; [reflexivity|].
    rewrite Howner. eapply Forall_impl; [apply discover_index|].
    simpl. intros l Hl. lia.
Qed.

(** A white layer (160.0 dB) alone on the canvas. *)
Lemma best_server_rule_witness :
  let layers := BestServer.discover [("a.kml"%string, Some (one_pixel "a.kml" white))] in
  let st := foldl (BestServer.merge_layer overlap_scale unit_geometry)
                  (BestServer.blank unit_geometry) layers in
  cell (BestServer.master_owner_id st) 0 0 = 0
  /\ cell (BestServer.paint unit_geometry (BestServer.master_owner_id st) layers) 0 0
     = transparent.
Proof.
  apply (proj2 (proj2 (best_server_rule overlap_scale unit_geometry 0 0))
           [("a.kml"%string, Some (one_pixel "a.kml" white))]).
  intros layer c Hin Hland.
  change (layer ∈ [ {| BestServer.base := one_pixel "a.kml" white;
                       BestServer.index := 1;
                       BestServer.display_color := (255, 0, 0) |} ]) in Hin.
  apply list_elem_of_singleton in Hin. subst layer.
  vm_compute in Hland. injection Hland as <-. vm_compute. reflexivity.
Defined.

(** ** C5 and C6: loading the table *)

Section TableFacts.
Variable py_float : string -> option Py.float.
Variable py_int : string -> option Z.

(** The loop over the lines adds to the list and to the map what the
    lines parse to, in order. *)
Lemma load_lines_entries lines : forall cs,
  entries (foldl (load_line py_float py_int) cs lines)
  = entries cs ++ omap (parse_line py_float py_int) lines.
Proof.
  induction lines as [|line lines IH]; intros cs; simpl.
  - rewrite app_nil_r. reflexivity.
  - rewrite IH. unfold load_line.
    destruct (parse_line py_float py_int line) as [[[[db r] g] b]|]; simpl;
      [|reflexivity].
    rewrite <- app_assoc. reflexivity.
Qed.

Lemma load_lines_map lines : forall cs,
  color_map (foldl (load_line py_float py_int) cs lines)
  = foldl (fun m e => <[entry_color e := entry_db e]> m) (color_map cs)
          (omap (parse_line py_float py_int) lines).
Proof.
  induction lines as [|line lines IH]; intros cs; simpl; [reflexivity|].
  rewrite IH. unfold load_line.
  destruct (parse_line py_float py_int line) as [[[[db r] g] b]|]; reflexivity.
Qed.

Lemma load_lcf_found lines :
  load_lcf py_float py_int (Readable lines)
  = inr {| color_map := color_map (foldl (load_line py_float py_int) empty_scale lines);
           entries := sort_by entry_db
                        (omap (parse_line py_float py_int) lines) |}.
Proof. unfold load_lcf. rewrite load_lines_entries. reflexivity. Qed.
End TableFacts.

(** Inserting entries in order into a map: the last entry of a colour
    decides, and the colours of the entries are the keys. *)
Lemma insert_entries_last (after : list entry) : forall (m : gmap color Py.float) c db,
  c ∉ entry_color <$> after ->
  m !! c = Some db ->
  foldl (fun m e => <[entry_color e := entry_db e]> m) m after !! c = Some db.
Proof.
  induction after as [|e after IH]; intros m c db Hnotin Hm; simpl; [exact Hm|].
  rewrite ?fmap_cons in Hnotin. apply not_elem_of_cons in Hnotin as [Hne Hnotin].
  apply IH; [exact Hnotin|]. rewrite lookup_insert_ne; [exact Hm | congruence].
Qed.

Lemma insert_entries_keys (l : list entry) : forall (m : gmap color Py.float) c,
  is_Some (foldl (fun m e => <[entry_color e := entry_db e]> m) m l !! c)
  <-> is_Some (m !! c) \/ c ∈ entry_color <$> l.
Proof.
  induction l as [|e l IH]; intros m c; simpl.
  - rewrite elem_of_nil. tauto.
  - rewrite IH, ?fmap_cons, elem_of_cons.
    destruct (decide (entry_color e = c)) as [<-|Hne].
    + rewrite lookup_insert_eq. split; [intros _; right; left; reflexivity|].
      intros _. left. eexists; reflexivity.
    + rewrite lookup_insert_ne by exact Hne. split; [tauto|].
      intros [H|[H|H]]; [tauto | congruence | tauto].
Qed.

(** The sort moves entries, it neither adds nor drops any. *)
Lemma insert_left_perm key x acc : insert_left key x acc ≡ₚ x :: acc.
Proof.
  induction acc as [|y acc IH]; simpl; [reflexivity|].
  destruct (Py.lt (key x) (key y)); [|reflexivity].
  rewrite IH. apply perm_swap.
Qed.

Lemma sort_by_perm key l : sort_by key l ≡ₚ l.
Proof.
  unfold sort_by.
  assert (H : forall acc, foldl (fun acc x => insert_left key x acc) acc l ≡ₚ l ++ acc).
  { induction l as [|x l IH]; intros acc; simpl; [reflexivity|].
    rewrite IH, insert_left_perm. symmetry. apply Permutation_middle. }
  rewrite <- Permutation_rev, H, app_nil_r. reflexivity.
Qed.

(** C5, as the scripts have it. Loading fails with FileNotFoundError
    when there is no file, and with the exception of [open()] or of the
    reading when the file is there but cannot be read; either failure
    ends the run at once: the run prints the error and returns, before
    any layer is looked at. Lines that are read never make the load
    fail; a file without a valid line gives the empty table. *)
Theorem table_load_failures (py_float : string -> option Py.float)
    (py_int : string -> option Z) :
  load_lcf py_float py_int Missing = inl FileNotFoundError
  /\ (forall e, load_lcf py_float py_int (Unreadable e) = inl e)
  /\ (forall lines, exists cs, load_lcf py_float py_int (Readable lines) = inr cs)
  /\ (forall lines,
         omap (parse_line py_float py_int) lines = [] ->
         load_lcf py_float py_int (Readable lines) = inr empty_scale)
  /\ (forall file e kml_files,
         load_lcf py_float py_int file = inl e ->
         (file = Missing /\ e = FileNotFoundError \/ file = Unreadable e)
         /\ Composite.create_composite_map py_float py_int file kml_files
            = ([PrintError e], Return)
         /\ BestServer.create_composite_map py_float py_int file kml_files
            = ([PrintError e], Return)
         /\ Redundancy.create_composite_map py_float py_int file kml_files
            = ([PrintError e], Return))
  /\ (forall kml_files,
         Composite.create_composite_map py_float py_int Missing kml_files
         = ([PrintError FileNotFoundError], Return))
  /\ (forall kml_files,
         BestServer.create_composite_map py_float py_int Missing kml_files
         = ([PrintError FileNotFoundError], Return))
  /\ (forall kml_files,
         Redundancy.create_composite_map py_float py_int Missing kml_files
         = ([PrintError FileNotFoundError], Return)).
Proof.
  split; [reflexivity|]. split; [reflexivity|].
  split; [|split; [|split]]; [| | |repeat split].
  - intros lines. rewrite load_lcf_found. eexists; reflexivity.
  - intros lines Hnone. rewrite load_lcf_found, load_lines_map, Hnone. reflexivity.
  - intros file e kml_files Hload.
    unfold Composite.create_composite_map, BestServer.create_composite_map,
      Redundancy.create_composite_map.
    rewrite Hload. split; [|repeat split].
    destruct file as [|e'|lines]; simpl in Hload.
    + left. injection Hload as <-. split; reflexivity.
    + right. injection Hload as <-. reflexivity.
    + discriminate.
Qed.

(** A table without a valid line loads, as the empty table, and the run
    goes on to merge the layers. *)
Lemma empty_table_is_loaded :
  load_lcf demo_float demo_int (Readable no_entry_lines) = inr empty_scale
  /\ (Composite.create_composite_map demo_float demo_int (Readable no_entry_lines)
        [("a.kml"%string, Some (one_pixel "a.kml" red))]).1
     = [PrintLoaded 0; PrintParsing; PrintFound "a.kml"; PrintMerging "a.kml";
        PrintSaving].
Proof. split; vm_compute; reflexivity. Qed.

Lemma size_color_map (l : list entry) :
  size (foldl (fun m e => <[entry_color e := entry_db e]> m)
              (∅ : gmap color Py.float) l)
  = length (remove_dups (entry_color <$> l)).
Proof.
  set (m := foldl _ _ l).
  assert (Hdom : dom m = (list_to_set (entry_color <$> l) : gset color)).
  { apply set_eq. intros c. rewrite elem_of_dom, elem_of_list_to_set.
    unfold m. rewrite insert_entries_keys, lookup_empty.
    split; [intros [[? H]|H]; [discriminate | exact H] | intros H; right; exact H]. }
  rewrite <- size_dom, Hdom.
  rewrite <- (size_list_to_set (C := gset color) (remove_dups (entry_color <$> l)))
    by apply NoDup_remove_dups.
  f_equal. apply set_eq. intros c.
  rewrite !elem_of_list_to_set, elem_of_remove_dups. reflexivity.
Qed.

(** C6, as the scripts have it. The colour map of a loaded table gives a
    colour the value of the last valid line that names it, and its keys
    are the distinct colours of the valid lines, one value for each. The
    entries of the legend are the valid lines, one entry for each line:
    a colour named on two lines has two entries. *)
Theorem table_last_wins (py_float : string -> option Py.float)
    (py_int : string -> option Z) (lines : list string) (cs : ColorScale) :
  load_lcf py_float py_int (Readable lines) = inr cs ->
  let parsed := omap (parse_line py_float py_int) lines in
  (forall before e after,
      parsed = before ++ e :: after ->
      entry_color e ∉ entry_color <$> after ->
      color_map cs !! entry_color e = Some (entry_db e))
  /\ (forall c, is_Some (color_map cs !! c) <-> c ∈ entry_color <$> parsed)
  /\ size (color_map cs) = length (remove_dups (entry_color <$> parsed))
  /\ entries cs ≡ₚ parsed.
Proof.
  rewrite load_lcf_found. intros [= <-] parsed. simpl.
  rewrite load_lines_map. fold parsed. simpl.
  split; [|split; [|split]].
  - intros before e after -> Hlast.
    rewrite foldl_app. simpl. apply insert_entries_last; [exact Hlast|].
    apply lookup_insert_eq.
  - intros c. rewrite insert_entries_keys, lookup_empty.
    split; [intros [[? H]|H]; [discriminate | exact H] | intros H; right; exact H].
  - apply size_color_map.
  - apply sort_by_perm.
Qed.

(** Red on two lines, 100.0 and then 80.0: the map says 80.0. *)
Lemma table_last_wins_witness :
  load_lcf demo_float demo_int (Readable twice_lines) = inr twice_scale
  /\ color_map twice_scale !! red = Some (ratio 80 1).
Proof.
  assert (Hload : load_lcf demo_float demo_int (Readable twice_lines) = inr twice_scale)
    by (vm_compute; reflexivity).
  split; [exact Hload|].
  apply (proj1 (table_last_wins demo_float demo_int twice_lines twice_scale Hload)
           [(ratio 100 1, 255, 0, 0)] (ratio 80 1, 255, 0, 0) []).
  - vm_compute. reflexivity.
  - apply not_elem_of_nil.
Defined.

(** The legend of that table has two entries for the one colour. *)
Lemma twice_named_twice_listed :
  load_lcf demo_float demo_int (Readable twice_lines) = inr twice_scale
  /\ entries twice_scale = [(ratio 80 1, 255, 0, 0); (ratio 100 1, 255, 0, 0)]
  /\ remove_dups (entry_color <$> entries twice_scale) = [red].
Proof. repeat split; vm_compute; reflexivity. Qed.

(** ** C7: the order of the legend *)

(** The order of floats that are not NaN. *)
Ltac float_cases :=
  unfold Py.lt, Py.le, Py.eq, Py.is_nan, SFltb, SFleb, SFeqb, SFcompare;
  repeat match goal with
    | x : spec_float |- _ => destruct x as [[]|[]| |[] ? ?]
    end;
  simpl; try congruence;
  change (Pos.compare_cont Eq) with Pos.compare;
  repeat match goal with
    | |- context [(?a ?= ?b)%Z] => destruct (Z.compare_spec a b)
    | |- context [(?a ?= ?b)%positive] => destruct (Pos.compare_spec a b)
    end;
  simpl; try congruence; try lia.

Lemma lt_le (x y : spec_float) : Py.lt x y = true -> Py.le x y = true.
Proof. float_cases. Qed.

Lemma le_total (x y : spec_float) :
  Py.is_nan x = false -> Py.is_nan y = false ->
  Py.lt x y = false -> Py.le y x = true.
Proof. float_cases. Qed.

Lemma le_trans (x y z : spec_float) :
  Py.le x y = true -> Py.le y z = true -> Py.le x z = true.
Proof. float_cases. Qed.

Lemma lt_not_equal (x y v : spec_float) :
  Py.lt x y = true -> Py.eq x v = true -> Py.eq y v = true -> False.
Proof. float_cases. Qed.

Lemma lt_ne (x y : spec_float) : Py.lt x y = true -> Py.ne x y = true.
Proof. unfold Py.ne. float_cases. Qed.

Section SortBy.
Variable key : entry -> Py.float.

Let descending := descending key.
Let is_number := is_number key.

Lemma insert_left_sorted x acc :
  is_number x -> Forall is_number acc ->
  StronglySorted descending acc ->
  StronglySorted descending (insert_left key x acc).
Proof.
  intros Hx. induction acc as [|y acc IH]; intros Hacc Hsorted; simpl.
  - repeat constructor.
  - apply Forall_cons in Hacc as [Hy Hacc].
    apply StronglySorted_cons in Hsorted as [Hbelow Hsorted].
    destruct (Py.lt (key x) (key y)) eqn:Hlt.
    + apply StronglySorted_cons. split; [|apply IH; assumption].
      rewrite insert_left_perm. constructor; [|exact Hbelow].
      unfold descending. apply lt_le, Hlt.
    + assert (Hyx : Py.le (key y) (key x) = true) by (apply le_total; assumption).
      apply StronglySorted_cons. split.
      * constructor; [exact Hyx|].
        eapply Forall_impl; [exact Hbelow|]. unfold descending; simpl.
        intros z Hz. exact (le_trans _ _ _ Hz Hyx).
      * apply StronglySorted_cons. split; assumption.
Qed.

Lemma insert_all_sorted l : forall acc,
  Forall is_number l -> Forall is_number acc ->
  StronglySorted descending acc ->
  StronglySorted descending (foldl (fun acc x => insert_left key x acc) acc l).
Proof.
  induction l as [|x l IH]; intros acc Hl Hacc Hsorted; simpl; [exact Hsorted|].
  apply Forall_cons in Hl as [Hx Hl].
  apply IH; [exact Hl | | apply insert_left_sorted; assumption].
  rewrite insert_left_perm. constructor; assumption.
Qed.

Lemma sorted_rev (l : list entry) :
  StronglySorted descending l ->
  StronglySorted (fun a b => Py.le (key a) (key b) = true) (rev l).
Proof.
  induction l as [|x l IH]; intros Hsorted; simpl; [constructor|].
  apply StronglySorted_cons in Hsorted as [Hbelow Hsorted].
  apply StronglySorted_app. split; [|split].
  - intros a b Ha Hb. apply list_elem_of_singleton in Hb. subst b.
    apply list_elem_of_In, in_rev, list_elem_of_In in Ha.
    rewrite Forall_forall in Hbelow. exact (Hbelow a Ha).
  - apply IH, Hsorted.
  - repeat constructor.
Qed.

Lemma sort_by_sorted l :
  Forall is_number l ->
  StronglySorted (fun a b => Py.le (key a) (key b) = true) (sort_by key l).
Proof.
  intros Hl. unfold sort_by. apply sorted_rev, insert_all_sorted;
    [exact Hl | constructor | constructor].
Qed.

(** Stability: an entry moves left only past entries of another
    value. *)
Lemma insert_left_filter v x acc :
  List.filter (fun e => Py.eq (key e) v) (rev (insert_left key x acc))
  = List.filter (fun e => Py.eq (key e) v) (rev acc ++ [x]).
Proof.
  induction acc as [|y acc IH]; simpl; [reflexivity|].
  destruct (Py.lt (key x) (key y)) eqn:Hlt; [|reflexivity].
  simpl. rewrite !List.filter_app, IH, !List.filter_app, <- !app_assoc. f_equal.
  simpl.
  destruct (Py.eq (key x) v) eqn:Hx, (Py.eq (key y) v) eqn:Hy; try reflexivity.
  destruct (lt_not_equal _ _ _ Hlt Hx Hy).
Qed.

Lemma sort_by_stable v l :
  List.filter (fun e => Py.eq (key e) v) (sort_by key l)
  = List.filter (fun e => Py.eq (key e) v) l.
Proof.
  unfold sort_by.
  assert (H : forall acc,
             List.filter (fun e => Py.eq (key e) v)
               (rev (foldl (fun acc x => insert_left key x acc) acc l))
             = List.filter (fun e => Py.eq (key e) v) (rev acc ++ l)).
  { induction l as [|x l IH]; intros acc; simpl.
    - rewrite app_nil_r. reflexivity.
    - rewrite IH, List.filter_app, insert_left_filter, <- List.filter_app,
        <- app_assoc. reflexivity. }
  apply H.
Qed.
End SortBy.

(** C7, as the scripts have it. When no value of the table is a NaN,
    the legend of a loaded table lists the entries of the valid lines in
    ascending order of value, entries of equal value in the order of
    their lines; so values parsed as 120.0, 80.0, 100.0 are listed as
    80.0, 100.0, 120.0. *)
Theorem legend_sorted (py_float : string -> option Py.float)
    (py_int : string -> option Z) (lines : list string) (cs : ColorScale) :
  load_lcf py_float py_int (Readable lines) = inr cs ->
  let parsed := omap (parse_line py_float py_int) lines in
  Forall (fun e => Py.is_nan (entry_db e) = false) parsed ->
  StronglySorted ascending (entries cs)
  /\ (forall v, with_value v (entries cs) = with_value v parsed)
  /\ entries cs ≡ₚ parsed
  /\ (forall e1 e2 e3,
         parsed = [e1; e2; e3] ->
         entry_db e1 = ratio 120 1 -> entry_db e2 = ratio 80 1 ->
         entry_db e3 = ratio 100 1 ->
         entries cs = [e2; e3; e1]).
Proof.
  rewrite load_lcf_found. intros [= <-] parsed Hnum. simpl. fold parsed.
  split; [|split; [|split]].
  - apply sort_by_sorted, Hnum.
  - intros v. apply sort_by_stable.
  - apply sort_by_perm.
  - intros e1 e2 e3 -> H1 H2 H3. unfold sort_by.
    assert (L1 : Py.lt (ratio 80 1) (ratio 120 1) = true) by (vm_compute; reflexivity).
    assert (L2 : Py.lt (ratio 100 1) (ratio 120 1) = true) by (vm_compute; reflexivity).
    assert (L3 : Py.lt (ratio 100 1) (ratio 80 1) = false) by (vm_compute; reflexivity).
    repeat (simpl; rewrite ?H1, ?H2, ?H3, ?L1, ?L2, ?L3). reflexivity.
Qed.

(** The table of the example. *)
Lemma legend_sorted_witness :
  load_lcf demo_float demo_int (Readable legend_lines) = inr legend_scale
  /\ entries legend_scale
     = [(ratio 80 1, 2, 2, 2); (ratio 100 1, 3, 3, 3); (ratio 120 1, 1, 1, 1)].
Proof.
  assert (Hload : load_lcf demo_float demo_int (Readable legend_lines) = inr legend_scale)
    by (vm_compute; reflexivity).
  split; [exact Hload|].
  assert (Hnum : Forall (fun e => Py.is_nan (entry_db e) = false)
                   (omap (parse_line demo_float demo_int) legend_lines))
    by (repeat constructor).
  apply (proj2 (proj2 (proj2 (legend_sorted demo_float demo_int legend_lines
                                legend_scale Hload Hnum)))
           (ratio 120 1, 1, 1, 1) (ratio 80 1, 2, 2, 2) (ratio 100 1, 3, 3, 3));
    vm_compute; reflexivity.
Defined.

(** With a NaN among the values the legend is not in ascending order:
    the sort leaves 2.0, NaN, 1.0 as they are, 1.0 after 2.0. *)
Lemma legend_with_nan_unsorted :
  load_lcf demo_float demo_int (Readable nan_lines) = inr nan_scale
  /\ entries nan_scale = [(ratio 2 1, 0, 0, 0); (S754_nan, 0, 0, 1); (ratio 1 1, 0, 0, 2)]
  /\ ~ StronglySorted ascending (entries nan_scale).
Proof.
  assert (Hentries : entries nan_scale
            = [(ratio 2 1, 0, 0, 0); (S754_nan, 0, 0, 1); (ratio 1 1, 0, 0, 2)])
    by (vm_compute; reflexivity).
  split; [vm_compute; reflexivity|]. split; [exact Hentries|].
  rewrite Hentries. intros Hsorted.
  apply StronglySorted_cons in Hsorted as [Hbelow _].
  apply Forall_cons in Hbelow as [Hnan _].
  vm_compute in Hnan. discriminate.
Qed.

(** ** C8: the size of the canvas *)

Lemma composite_loop_shape cs g layers :
  shape (Composite.master_rgba
           (foldl (Composite.merge_layer cs g) (Composite.blank g) layers))
  = (master_h g, master_w g).
Proof. apply (composite_ok_loop cs g layers), composite_ok_blank. Qed.

(** X1. The size of the canvas as the scripts compute it, in float
    arithmetic. With [ppd_lat] the height of the reference image divided
    by the reference's span in latitude and [ppd_lon] its width divided
    by its span in longitude, the canvas has as many rows as the union's
    span in latitude times [ppd_lat], truncated to an integer, and as
    many columns as the union's span in longitude times [ppd_lon],
    truncated. For a reference of 1000 x 800 pixels and spans that the
    float subtractions give as exactly 1.0 x 0.8 degrees for the
    reference and 2.0 x 1.6 degrees for the union, that is 2000 x 1600
    pixels. *)
Theorem canvas_size (ref_layer : MapLayer) (others : list MapLayer) :
  let global_north := Py.max (north ref_layer) (north <$> others) in
  let global_south := Py.min (south ref_layer) (south <$> others) in
  let global_east := Py.max (east ref_layer) (east <$> others) in
  let global_west := Py.min (west ref_layer) (west <$> others) in
  (forall g,
      canvas_geometry ref_layer others = inr g ->
      exists img,
        png ref_layer = Some img
        /\ Py.int_truediv (nrows img) (Py.fsub (north ref_layer) (south ref_layer))
           = inr (ppd_lat g)
        /\ Py.int_truediv (ncols img) (Py.fsub (east ref_layer) (west ref_layer))
           = inr (ppd_lon g)
        /\ Py.int_of_float (Py.fmul (Py.fsub global_north global_south) (ppd_lat g))
           = inr (master_h g)
        /\ Py.int_of_float (Py.fmul (Py.fsub global_east global_west) (ppd_lon g))
           = inr (master_w g)
        /\ forall cs,
            shape (Composite.master_rgba
                     (foldl (Composite.merge_layer cs g) (Composite.blank g)
                            (ref_layer :: others)))
            = (master_h g, master_w g))
  /\ (forall img,
         png ref_layer = Some img ->
         nrows img = 800 -> ncols img = 1000 ->
         Py.fsub (north ref_layer) (south ref_layer) = ratio 8 10 ->
         Py.fsub (east ref_layer) (west ref_layer) = ratio 1 1 ->
         Py.fsub global_north global_south = ratio 16 10 ->
         Py.fsub global_east global_west = ratio 2 1 ->
         exists g,
           canvas_geometry ref_layer others = inr g
           /\ master_h g = 1600 /\ master_w g = 2000).
Proof.
  intros gn gs ge gw. split.
  - intros g. unfold canvas_geometry. fold gn gs ge gw.
    destruct (png ref_layer) as [img|]; [|discriminate].
    destruct (Py.int_truediv (nrows img) _) as [?|plat] eqn:Hlat; [discriminate|].
    destruct (Py.int_truediv (ncols img) _) as [?|plon] eqn:Hlon; [discriminate|].
    simpl.
    destruct (Py.int_of_float (Py.fmul (Py.fsub gn gs) plat)) as [?|mh] eqn:Hh;
      [discriminate|].
    destruct (Py.int_of_float (Py.fmul (Py.fsub ge gw) plon)) as [?|mw] eqn:Hw;
      [discriminate|].
    simpl. destruct ((mh <? 0) || (mw <? 0)); [discriminate|].
    intros [= <-]. simpl. exists img. repeat split; try assumption.
    intros cs. exact (composite_loop_shape cs _ (ref_layer :: others)).
  - intros img Himg Hrows Hcols Hlat Hlon Hns Hew.
    unfold canvas_geometry. fold gn gs ge gw.
    rewrite Himg, Hrows, Hcols, Hlat, Hlon, Hns, Hew.
    eexists. split; [vm_compute; reflexivity|]. split; reflexivity.
Qed.

(** The reference layer and a layer to its north-east. *)
Lemma canvas_size_witness :
  exists g,
    canvas_geometry reference_layer [far_layer] = inr g
    /\ master_h g = 1600 /\ master_w g = 2000.
Proof.
  apply (proj2 (canvas_size reference_layer [far_layer]) (np_full 800 1000 red));
    vm_compute; reflexivity.
Defined.

(** C8. A reference of 1000 x 800 pixels over 1.0 x 0.8 degrees and a
    union of 2.0 x 1.6 degrees should give a canvas of 2000 x 1600
    pixels. With the reference between the latitudes 0.1 and 0.9 and the
    union between 0.1 and 1.7 the scripts make it 1599 rows high:
    [ppd_lat] is 800 / (0.9 - 0.1) = 1000.0, but 1.7 - 0.1 is
    1.5999999999999999 in floats, the product is 1599.9999999999998, and
    [int()] truncates it. *)
Lemma canvas_one_row_short :
  exists g,
    canvas_geometry shifted_reference [shifted_far] = inr g
    /\ Py.fsub (north shifted_reference) (south shifted_reference) = ratio 8 10
    /\ master_h g = 1599 /\ master_w g = 2000.
Proof.
  eexists. split; [vm_compute; reflexivity|]. repeat split; vm_compute; reflexivity.
Qed.

(** ** C9: one layer alone *)

Lemma int_of_float_finite x n : Py.int_of_float x = inr n -> Py.is_finite x = true.
Proof. destruct x; simpl; intros H; try reflexivity; discriminate. Qed.

Lemma fmul_finite a b :
  Py.is_finite (Py.fmul a b) = true -> Py.is_finite a = true /\ Py.is_finite b = true.
Proof.
  destruct a as [[]|[]| |[] ? ?], b as [[]|[]| |[] ? ?]; simpl;
    intros H; try discriminate; split; reflexivity.
Qed.

Lemma fsub_finite a b :
  Py.is_finite (Py.fsub a b) = true -> Py.is_finite a = true /\ Py.is_finite b = true.
Proof.
  destruct a as [[]|[]| |[] ? ?], b as [[]|[]| |[] ? ?]; simpl;
    intros H; try discriminate; split; reflexivity.
Qed.

Lemma fsub_self a : Py.is_finite a = true -> Py.is_zero (Py.fsub a a) = true.
Proof.
  destruct a as [[]|[]| |s m e]; simpl; intros H; try discriminate; try reflexivity.
  unfold Py.fsub, SFsub. rewrite Z.sub_diag. reflexivity.
Qed.

Lemma fmul_zero a b :
  Py.is_zero a = true -> Py.is_finite b = true -> Py.is_zero (Py.fmul a b) = true.
Proof.
  destruct a as [[]|[]| |[] ? ?], b as [[]|[]| |[] ? ?]; simpl;
    intros Ha Hb; try discriminate; reflexivity.
Qed.

Lemma int_of_zero a : Py.is_zero a = true -> Py.int_of_float a = inr 0.
Proof. destruct a; simpl; intros H; try discriminate; reflexivity. Qed.

Lemma lt_undefined_wins t :
  Py.lt t UNDEFINED_PATH_LOSS && Py.ne t UNDEFINED_PATH_LOSS
  = Py.lt t UNDEFINED_PATH_LOSS.
Proof.
  destruct (Py.lt t UNDEFINED_PATH_LOSS) eqn:Hlt; [|reflexivity].
  rewrite (lt_ne _ _ Hlt). reflexivity.
Qed.

(** A layer alone is its own union: it is laid at the origin of the
    canvas. *)
Lemma alone_at_origin layer img g :
  png layer = Some img ->
  canvas_geometry layer [] = inr g ->
  Py.int_of_float (Py.fmul (Py.fsub (global_north g) (north layer)) (ppd_lat g)) = inr 0
  /\ Py.int_of_float (Py.fmul (Py.fsub (west layer) (global_west g)) (ppd_lon g)) = inr 0
  /\ 0 <= master_h g /\ 0 <= master_w g.
Proof.
  intros Himg. unfold canvas_geometry. rewrite Himg. simpl.
  destruct (Py.int_truediv (nrows img) _) as [?|plat]; [discriminate|].
  destruct (Py.int_truediv (ncols img) _) as [?|plon]; [discriminate|].
  simpl.
  destruct (Py.int_of_float (Py.fmul (Py.fsub (north layer) (south layer)) plat))
    as [?|mh] eqn:Hh; [discriminate|].
  destruct (Py.int_of_float (Py.fmul (Py.fsub (east layer) (west layer)) plon))
    as [?|mw] eqn:Hw; [discriminate|].
  simpl. destruct ((mh <? 0) || (mw <? 0)) eqn:Hneg; [discriminate|].
  intros [= <-]. simpl.
  apply orb_false_iff in Hneg as [Hmh Hmw].
  apply int_of_float_finite, fmul_finite in Hh as [Hns Hplat].
  apply int_of_float_finite, fmul_finite in Hw as [Hew Hplon].
  apply fsub_finite in Hns as [Hn _]. apply fsub_finite in Hew as [_ Hwest].
  repeat split; try lia.
  - apply int_of_zero, fmul_zero; [apply fsub_self|]; assumption.
  - apply int_of_zero, fmul_zero; [apply fsub_self|]; assumption.
Qed.

Lemma alone_landing layer img g y x :
  png layer = Some img ->
  canvas_geometry layer [] = inr g ->
  master_h g = nrows img -> master_w g = ncols img ->
  inside img y x ->
  landing g layer y x = Some (cell img y x).
Proof.
  intros Himg Hg Hh Hw [Hy Hx].
  destruct (alone_at_origin layer img g Himg Hg) as (Hys & Hxs & _ & _).
  unfold landing, layer_extent. rewrite Himg, Hys, Hxs.
  unfold curr_h, curr_w, window, slice_index; simpl. rewrite Hh, Hw.
  rewrite !Z.min_id, !Z.sub_0_r.
  replace (nrows img <=? 0) with false by lia.
  replace (ncols img <=? 0) with false by lia.
  simpl.
  replace (nrows img <? 0) with false by lia.
  replace (ncols img <? 0) with false by lia.
  replace (Z.min 0 (nrows img)) with 0 by lia.
  replace (Z.min 0 (ncols img)) with 0 by lia.
  rewrite ?Z.min_id, !Z.sub_0_r, !Z.eqb_refl. simpl.
  replace (0 <=? y) with true by lia. replace (y <? nrows img) with true by lia.
  replace (0 <=? x) with true by lia. replace (x <? ncols img) with true by lia.
  reflexivity.
Qed.

(** C9, as composite.py has it. One layer composited alone, when the
    truncated size of the canvas is the size of its raster: the image
    has the shape of the raster, and each of its pixels is the raster's
    pixel made opaque when the colour decodes to a value below
    UNDEFINED, and is transparent otherwise, as for every colour that
    the table does not hold. *)
Theorem single_layer_round_trip (py_float : string -> option Py.float)
    (py_int : string -> option Z) (lines : list string) (cs : ColorScale)
    (kml : string) (layer : MapLayer) (img : ndarray color) (g : geometry) :
  load_lcf py_float py_int (Readable lines) = inr cs ->
  contains Composite.OUTPUT_NAME kml = false ->
  png layer = Some img ->
  canvas_geometry layer [] = inr g ->
  master_h g = nrows img -> master_w g = ncols img ->
  exists log out,
    Composite.create_composite_map py_float py_int (Readable lines) [(kml, Some layer)]
    = (log, Saved out)
    /\ shape (Composite.image out) = shape img
    /\ forall y x,
        inside img y x ->
        let c := cell img y x in
        cell (Composite.image out) y x
        = (if Py.lt (decode_value (color_map cs) c) UNDEFINED_PATH_LOSS
           then opaque c else transparent)
        /\ (color_map cs !! c = None -> cell (Composite.image out) y x = transparent).
Proof.
  intros Hload Hname Himg Hg Hh Hw.
  unfold Composite.create_composite_map, Composite.discover. rewrite Hload. simpl.
  rewrite Hname, Hg. simpl.
  eexists _, _. split; [reflexivity|]. cbn [Composite.image].
  pose proof (composite_merge_cell cs g (Composite.blank g) layer) as Hcell.
  split.
  - destruct (Hcell 0 0 (composite_ok_blank g)) as [[_ Hshape] _].
    rewrite Hshape, Hh, Hw. reflexivity.
  - intros y x Hin. set (c := cell img y x).
    destruct (Hcell y x (composite_ok_blank g)) as [_ Hyx].
    rewrite (alone_landing layer img g y x Himg Hg Hh Hw Hin) in Hyx.
    cbv zeta in Hyx. fold c in Hyx.
    change (cell (Composite.master_loss (Composite.blank g)) y x)
      with UNDEFINED_PATH_LOSS in Hyx.
    change (cell (Composite.master_rgba (Composite.blank g)) y x)
      with transparent in Hyx.
    rewrite lt_undefined_wins in Hyx.
    assert (Hout : cell (Composite.master_rgba
                           (Composite.merge_layer cs g (Composite.blank g) layer)) y x
                   = if Py.lt (decode_value (color_map cs) c) UNDEFINED_PATH_LOSS
                     then opaque c else transparent).
    { destruct (Py.lt _ _); injection Hyx as _ ->; reflexivity. }
    split; [exact Hout|].
    intros Habsent. rewrite Hout. unfold decode_value. rewrite Habsent.
    rewrite lt_irrefl. reflexivity.
Qed.

(** The patch of 2 x 2 pixels composited alone with the table of red
    and blue: red and blue come out opaque, grey transparent. *)
Lemma single_layer_round_trip_witness :
  exists log out,
    Composite.create_composite_map demo_float demo_int (Readable demo_lines)
      [("patch.kml"%string, Some patch_layer)] = (log, Saved out)
    /\ shape (Composite.image out) = (2, 2)
    /\ cell (Composite.image out) 0 0 = (255, 0, 0, 255)
    /\ cell (Composite.image out) 0 1 = transparent
    /\ cell (Composite.image out) 1 0 = (0, 0, 255, 255)
    /\ cell (Composite.image out) 1 1 = (255, 0, 0, 255).
Proof.
  assert (Hload : load_lcf demo_float demo_int (Readable demo_lines) = inr demo_scale)
    by (vm_compute; reflexivity).
  assert (Hname : contains Composite.OUTPUT_NAME "patch.kml" = false)
    by (vm_compute; reflexivity).
  assert (Hgeo : canvas_geometry patch_layer [] = inr patch_geometry)
    by (vm_compute; reflexivity).
  destruct (single_layer_round_trip demo_float demo_int demo_lines demo_scale
              "patch.kml" patch_layer patch patch_geometry
              Hload Hname eq_refl Hgeo eq_refl eq_refl)
    as (log & out & Hrun & Hshape & Hcells).
  exists log, out. split; [exact Hrun|]. split; [exact Hshape|].
  assert (Hin : forall y x, 0 <= y < 2 -> 0 <= x < 2 -> inside patch y x)
    by (intros y x Hy Hx; split; assumption).
  repeat split.
  - rewrite (proj1 (Hcells 0 0 (Hin 0 0 ltac:(lia) ltac:(lia)))). vm_compute. reflexivity.
  - rewrite (proj1 (Hcells 0 1 (Hin 0 1 ltac:(lia) ltac:(lia)))). vm_compute. reflexivity.
  - rewrite (proj1 (Hcells 1 0 (Hin 1 0 ltac:(lia) ltac:(lia)))). vm_compute. reflexivity.
  - rewrite (proj1 (Hcells 1 1 (Hin 1 1 ltac:(lia) ltac:(lia)))). vm_compute. reflexivity.
Defined.

(** Two single layers whose composite is not their raster. A red pixel
    that the table gives 10000.0 dB, a value that is not below
    UNDEFINED, comes out transparent, not opaque red. And a raster of
    100 rows between the latitudes 1.0 and 2.2 gets a canvas of 99 rows:
    100 / (2.2 - 1.0) is 83.33333333333331 in floats, and the span times
    that is 99.99999999999999, which [int()] truncates. *)
Lemma single_layer_not_reproduced :
  color_map beyond_scale !! red = Some (ratio 10000 1)
  /\ (fun out => cell (Composite.image out) 0 0)
     <$> saved (Composite.create_composite_map demo_float demo_int (Readable beyond_lines)
                  [("a.kml"%string, Some (one_pixel "a.kml" red))])
     = Some transparent
  /\ png tall_layer = Some (np_full 100 100 red)
  /\ (fun out => shape (Composite.image out))
     <$> saved (Composite.create_composite_map demo_float demo_int (Readable demo_lines)
                  [("tall.kml"%string, Some tall_layer)])
     = Some (99, 100).
Proof.
  split; [vm_compute; reflexivity|]. split; [vm_compute; reflexivity|].
  split; [reflexivity|]. vm_compute; reflexivity.
Qed.

(** * Further properties of the scripts *)

(** ** The best signal is the least value (composite.py) *)

(** The merge loop of composite.py, seen from one cell. *)
Lemma composite_loop_cell cs g y x layers st :
  composite_ok g st ->
  best_cell (foldl (Composite.merge_layer cs g) st layers) y x
  = foldl best_step (best_cell st y x) (values_at (color_map cs) g layers y x).
Proof.
  revert st. induction layers as [|l layers IH]; intros st Hok; simpl; [reflexivity|].
  destruct (composite_merge_cell cs g st l y x Hok) as (Hok' & Hcell).
  rewrite (IH _ Hok'). unfold values_at; simpl.
  destruct (landing g l y x) as [c|]; simpl; f_equal; exact Hcell.
Qed.

Lemma eq_not_lt (a b : spec_float) : Py.eq a b = true -> Py.lt a b = false.
Proof. float_cases. Qed.

Lemma eq_lt_lt (a s b : spec_float) :
  Py.eq a b = true -> Py.lt a s = true -> Py.lt s b = true -> False.
Proof. float_cases. Qed.

Lemma undefined_not_below (a s : spec_float) :
  Py.eq a UNDEFINED_PATH_LOSS = true -> Py.lt a s = true ->
  s = UNDEFINED_PATH_LOSS \/ Py.lt s UNDEFINED_PATH_LOSS = true -> False.
Proof.
  intros Ha Hlt [-> | Hs].
  - rewrite (eq_not_lt _ _ Ha) in Hlt. discriminate.
  - exact (eq_lt_lt _ _ _ Ha Hlt Hs).
Qed.

Lemma opaque_not_transparent c : opaque c <> transparent.
Proof. unfold opaque, transparent. intros [= _ _ _]. Qed.

(** What a run of values leaves in a cell that starts undefined and
    transparent: the least of the values below UNDEFINED, with the colour
    that came with it, or the cell as it was. *)
Lemma best_steps_least (values : list (Py.float32 * color)) :
  let s := foldl best_step (UNDEFINED_PATH_LOSS, transparent) values in
  (s = (UNDEFINED_PATH_LOSS, transparent)
   \/ exists c, (s.1, c) ∈ values /\ s.2 = opaque c
                /\ Py.lt s.1 UNDEFINED_PATH_LOSS = true)
  /\ (forall t c, (t, c) ∈ values -> Py.lt t s.1 = false).
Proof.
  induction values as [|[t' c'] values IH] using rev_ind; cbv zeta in *.
  - split; [left; reflexivity|]. intros t c Hin. inversion Hin.
  - rewrite foldl_app. cbn [foldl].
    set (s := foldl best_step (UNDEFINED_PATH_LOSS, transparent) values) in *.
    destruct IH as [Hs Hleast].
    assert (Hbound : s.1 = UNDEFINED_PATH_LOSS \/ Py.lt s.1 UNDEFINED_PATH_LOSS = true).
    { destruct Hs as [-> | (c & _ & _ & Hlt)]; [left; reflexivity | right; exact Hlt]. }
    unfold best_step. cbn [fst snd].
    destruct (Py.lt t' s.1) eqn:Hlt; cbn [andb].
    + destruct (Py.ne t' UNDEFINED_PATH_LOSS) eqn:Hne; cbn [fst snd].
      * split.
        -- right. exists c'. split; [apply elem_of_app; right; constructor|].
           split; [reflexivity|].
           destruct Hbound as [Hu | Hu]; [rewrite Hu in Hlt; exact Hlt|].
           exact (lt_trans _ _ _ Hlt Hu).
        -- intros t c Hin. apply elem_of_app in Hin as [Hin | Hin].
           ++ destruct (Py.lt t t') eqn:Htt; [|reflexivity].
              rewrite <- (Hleast t c Hin). symmetry. exact (lt_trans _ _ _ Htt Hlt).
           ++ apply list_elem_of_singleton in Hin. injection Hin as -> ->.
              apply lt_irrefl.
      * exfalso. apply negb_false_iff in Hne.
        exact (undefined_not_below t' s.1 Hne Hlt Hbound).
    + split.
      * destruct Hs as [Hs | (c & Hin & Hc & Hu)]; [left; exact Hs|].
        right. exists c. split; [apply elem_of_app; left; exact Hin|]. split; assumption.
      * intros t c Hin. apply elem_of_app in Hin as [Hin | Hin]; [exact (Hleast t c Hin)|].
        apply list_elem_of_singleton in Hin. injection Hin as -> ->. exact Hlt.
Qed.

(** At the end of the merge loop of composite.py a pixel holds the
    least value that the layers brought to it below UNDEFINED, opaque in
    the colour of a layer that brought it, and no layer brought a lower
    value; a pixel to which no layer brought a value below UNDEFINED is
    still UNDEFINED and transparent. *)
Lemma composite_cell_least (cs : ColorScale) (g : geometry)
    (layers : list MapLayer) (y x : Z) :
  let st := foldl (Composite.merge_layer cs g) (Composite.blank g) layers in
  let values := values_at (color_map cs) g layers y x in
  let v := cell (Composite.master_loss st) y x in
  let p := cell (Composite.master_rgba st) y x in
  (v = UNDEFINED_PATH_LOSS /\ p = transparent
   \/ exists c, (v, c) ∈ values /\ p = opaque c
                /\ Py.lt v UNDEFINED_PATH_LOSS = true)
  /\ (forall t c, (t, c) ∈ values -> Py.lt t v = false).
Proof.
  intros st values v p.
  pose proof (composite_loop_cell cs g y x layers (Composite.blank g)
                (composite_ok_blank g)) as Hloop.
  fold st values in Hloop.
  change (best_cell (Composite.blank g) y x)
    with (UNDEFINED_PATH_LOSS, transparent) in Hloop.
  pose proof (best_steps_least values) as [Hs Hleast]. cbv zeta in Hs, Hleast.
  rewrite <- Hloop in Hs, Hleast. unfold best_cell in Hs, Hleast. simpl in Hs, Hleast.
  fold v p in Hs, Hleast. split; [|exact Hleast].
  destruct Hs as [[= Hv Hp] | Hs]; [left; split; assumption | right; exact Hs].
Qed.

(** X2. At the end of the merge loop of composite.py a pixel holds the
    least value that the layers brought to it below UNDEFINED, opaque in
    the colour of a layer that brought it, and no layer brought a lower
    value; a pixel to which no layer brought a value below UNDEFINED is
    still UNDEFINED and transparent. *)
Theorem best_signal_is_least (cs : ColorScale) (g : geometry)
    (layers : list MapLayer) (y x : Z) :
  let st := foldl (Composite.merge_layer cs g) (Composite.blank g) layers in
  let values := values_at (color_map cs) g layers y x in
  let v := cell (Composite.master_loss st) y x in
  let p := cell (Composite.master_rgba st) y x in
  (v = UNDEFINED_PATH_LOSS /\ p = transparent
   \/ exists c, (v, c) ∈ values /\ p = opaque c
                /\ Py.lt v UNDEFINED_PATH_LOSS = true)
  /\ (forall t c, (t, c) ∈ values -> Py.lt t v = false).
Proof. exact (composite_cell_least cs g layers y x). Qed.

(** ** The order of the layers (composite.py) *)

Lemma values_at_perm cm g (layers layers' : list MapLayer) y x :
  layers ≡ₚ layers' -> values_at cm g layers y x ≡ₚ values_at cm g layers' y x.
Proof. intros Hperm. unfold values_at. rewrite Hperm. reflexivity. Qed.

Lemma lt_not_nan (a b : spec_float) : Py.lt a b = true -> Py.is_nan a = false.
Proof. float_cases. Qed.

Lemma neither_below_equal (a b : spec_float) :
  Py.is_nan a = false -> Py.is_nan b = false ->
  Py.lt a b = false -> Py.lt b a = false -> Py.eq a b = true.
Proof. float_cases. Qed.

(** The merge loop on one canvas: in another order of the layers every
    pixel ends with an equal value, and is transparent in the one
    buffer exactly when it is in the other. *)
Lemma merge_any_order (cs : ColorScale) (g : geometry)
    (layers layers' : list MapLayer) (y x : Z) :
  layers ≡ₚ layers' ->
  let st := foldl (Composite.merge_layer cs g) (Composite.blank g) layers in
  let st' := foldl (Composite.merge_layer cs g) (Composite.blank g) layers' in
  Py.eq (cell (Composite.master_loss st) y x) (cell (Composite.master_loss st') y x)
  = true
  /\ (cell (Composite.master_rgba st) y x = transparent
      <-> cell (Composite.master_rgba st') y x = transparent).
Proof.
  intros Hperm st st'.
  pose proof (values_at_perm (color_map cs) g layers layers' y x Hperm) as Hvals.
  destruct (composite_cell_least cs g layers y x) as [Hs Hleast].
  destruct (composite_cell_least cs g layers' y x) as [Hs' Hleast'].
  cbv zeta in Hs, Hs', Hleast, Hleast'. fold st in Hs, Hleast. fold st' in Hs', Hleast'.
  destruct Hs as [[Hv Hp] | (c & Hin & Hp & Hu)];
    destruct Hs' as [[Hv' Hp'] | (c' & Hin' & Hp' & Hu')].
  - rewrite Hv, Hv', Hp, Hp'. split; [reflexivity | tauto].
  - exfalso. rewrite <- Hvals in Hin'. pose proof (Hleast _ _ Hin') as Hno.
    rewrite Hv in Hno. congruence.
  - exfalso. rewrite Hvals in Hin. pose proof (Hleast' _ _ Hin) as Hno.
    rewrite Hv' in Hno. congruence.
  - split.
    + apply neither_below_equal.
      * exact (lt_not_nan _ _ Hu).
      * exact (lt_not_nan _ _ Hu').
      * rewrite Hvals in Hin. exact (Hleast' _ _ Hin).
      * rewrite <- Hvals in Hin'. exact (Hleast _ _ Hin').
    + rewrite Hp, Hp'. split; intros H; destruct (opaque_not_transparent _ H).
Qed.

(** A run of composite.py that computes the canvas [g] saves the visual
    buffer of the merge loop on [g]. *)
Lemma run_saves_loop (py_float : string -> option Py.float)
    (py_int : string -> option Z) lines cs kml_files g :
  load_lcf py_float py_int (Readable lines) = inr cs ->
  canvas_of (Composite.discover kml_files) = Some g ->
  Composite.image
    <$> saved (Composite.create_composite_map py_float py_int (Readable lines) kml_files)
  = Some (Composite.master_rgba
            (foldl (Composite.merge_layer cs g) (Composite.blank g)
                   (Composite.discover kml_files))).
Proof.
  intros Hload Hg. unfold Composite.create_composite_map. rewrite Hload. cbv zeta.
  destruct (Composite.discover kml_files) as [|ref_layer others]; [discriminate|].
  cbn [canvas_of] in Hg.
  destruct (canvas_geometry ref_layer others) as [?|g0]; [discriminate|].
  injection Hg as ->. reflexivity.
Qed.

(** X3. Two runs of composite.py that find the same layers in different
    orders and compute the same canvas for them (the canvas comes from
    the first layer found and the union of the boxes, so another first
    layer can give another canvas): each run saves the visual buffer of
    its merge loop, every pixel ends with an equal best value in the
    two loops, and it is transparent in the one saved image exactly when
    it is in the other. (Only between layers of equal value does the
    order choose the colour.) *)
Theorem best_signal_any_order (py_float : string -> option Py.float)
    (py_int : string -> option Z) (lines : list string) (cs : ColorScale)
    (kml_files kml_files' : list (string * option MapLayer))
    (g : geometry) (y x : Z) :
  load_lcf py_float py_int (Readable lines) = inr cs ->
  Composite.discover kml_files ≡ₚ Composite.discover kml_files' ->
  canvas_of (Composite.discover kml_files) = Some g ->
  canvas_of (Composite.discover kml_files') = Some g ->
  let st := foldl (Composite.merge_layer cs g) (Composite.blank g)
                  (Composite.discover kml_files) in
  let st' := foldl (Composite.merge_layer cs g) (Composite.blank g)
                   (Composite.discover kml_files') in
  Composite.image
    <$> saved (Composite.create_composite_map py_float py_int (Readable lines) kml_files)
  = Some (Composite.master_rgba st)
  /\ Composite.image
       <$> saved (Composite.create_composite_map py_float py_int (Readable lines)
                    kml_files')
     = Some (Composite.master_rgba st')
  /\ Py.eq (cell (Composite.master_loss st) y x) (cell (Composite.master_loss st') y x)
     = true
  /\ (cell (Composite.master_rgba st) y x = transparent
      <-> cell (Composite.master_rgba st') y x = transparent).
Proof.
  intros Hload Hperm Hg Hg' st st'.
  split; [exact (run_saves_loop _ _ _ _ _ _ Hload Hg)|].
  split; [exact (run_saves_loop _ _ _ _ _ _ Hload Hg')|].
  exact (merge_any_order cs g _ _ y x Hperm).
Qed.

(** A red layer (100.0 dB) and a blue one (80.0 dB) over the same box of
    one pixel, found in both orders. *)
Lemma best_signal_any_order_witness :
  let ab := [ ("a.kml"%string, Some (one_pixel "a.kml" red));
              ("b.kml"%string, Some (one_pixel "b.kml" blue)) ] in
  let ba := [ ("b.kml"%string, Some (one_pixel "b.kml" blue));
              ("a.kml"%string, Some (one_pixel "a.kml" red)) ] in
  let final kml_files :=
    foldl (Composite.merge_layer demo_scale unit_geometry)
          (Composite.blank unit_geometry) (Composite.discover kml_files) in
  load_lcf demo_float demo_int (Readable demo_lines) = inr demo_scale
  /\ Composite.discover ab ≡ₚ Composite.discover ba
  /\ canvas_of (Composite.discover ab) = Some unit_geometry
  /\ canvas_of (Composite.discover ba) = Some unit_geometry
  /\ Py.eq (cell (Composite.master_loss (final ab)) 0 0)
           (cell (Composite.master_loss (final ba)) 0 0) = true
  /\ (cell (Composite.master_rgba (final ab)) 0 0 = transparent
      <-> cell (Composite.master_rgba (final ba)) 0 0 = transparent).
Proof.
  intros ab ba final.
  assert (Hload : load_lcf demo_float demo_int (Readable demo_lines) = inr demo_scale)
    by (vm_compute; reflexivity).
  assert (Hperm : Composite.discover ab ≡ₚ Composite.discover ba)
    by (apply perm_swap).
  assert (Hg : canvas_of (Composite.discover ab) = Some unit_geometry)
    by (vm_compute; reflexivity).
  assert (Hg' : canvas_of (Composite.discover ba) = Some unit_geometry)
    by (vm_compute; reflexivity).
  split; [exact Hload|]. split; [exact Hperm|]. split; [exact Hg|]. split; [exact Hg'|].
  exact (proj2 (proj2 (best_signal_any_order demo_float demo_int demo_lines demo_scale
                         ab ba unit_geometry 0 0 Hload Hperm Hg Hg'))).
Defined.

(** The second hypothesis on the canvas is needed: the layers of C8 get
    a canvas of 1599 rows when the one is found first and of 1600 rows
    when the other is. *)
Lemma canvas_depends_on_first :
  master_h <$> canvas_of [shifted_reference; shifted_far] = Some 1599
  /\ master_h <$> canvas_of [shifted_far; shifted_reference] = Some 1600.
Proof. split; vm_compute; reflexivity. Qed.

(** ** The best server (composite_best_server.py) *)

(** What a run of values leaves in a cell under a gated update: the
    least of the values that pass the test, or the cell as it was. *)
Lemma gated_steps_least {A B : Type} (ok : Py.float32 -> bool) (f : A -> B)
    (init : Py.float32 * B) (values : list (Py.float32 * A)) :
  let s := foldl (gated_step ok f) init values in
  (s = init
   \/ exists a, (s.1, a) ∈ values /\ s.2 = f a /\ ok s.1 = true
                /\ Py.lt s.1 init.1 = true)
  /\ (forall t a, (t, a) ∈ values -> ok t = true -> Py.lt t s.1 = false).
Proof.
  induction values as [|[t' a'] values IH] using rev_ind; cbv zeta in *.
  - split; [left; reflexivity|]. intros t a Hin. inversion Hin.
  - set (s := foldl (gated_step ok f) init values) in *.
    assert (Hstep : foldl (gated_step ok f) init (values ++ [(t', a')])
                    = if Py.lt t' s.1 && ok t' then (t', f a') else s)
      by (rewrite foldl_app; reflexivity).
    rewrite Hstep. clear Hstep. destruct IH as [Hs Hleast].
    destruct (Py.lt t' s.1 && ok t') eqn:Hwin; cbn [fst snd].
    + apply andb_true_iff in Hwin as [Hlt Hok]. split.
      * right. exists a'. split; [apply elem_of_app; right; constructor|].
        split; [reflexivity|]. split; [exact Hok|].
        destruct Hs as [Hs | (a & _ & _ & _ & Hbelow)];
          [rewrite Hs in Hlt; exact Hlt | exact (lt_trans _ _ _ Hlt Hbelow)].
      * intros t a Hin Hokt. apply elem_of_app in Hin as [Hin | Hin].
        -- destruct (Py.lt t t') eqn:Htt; [|reflexivity].
           rewrite <- (Hleast t a Hin Hokt). symmetry. exact (lt_trans _ _ _ Htt Hlt).
        -- apply list_elem_of_singleton in Hin. injection Hin as -> ->.
           apply lt_irrefl.
    + split.
      * destruct Hs as [Hs | (a & Hin & Ha & Hoks & Hb)]; [left; exact Hs|].
        right. exists a. split; [apply elem_of_app; left; exact Hin|].
        repeat split; assumption.
      * intros t a Hin Hokt. apply elem_of_app in Hin as [Hin | Hin];
          [exact (Hleast t a Hin Hokt)|].
        apply list_elem_of_singleton in Hin. injection Hin as -> ->.
        rewrite Hokt, andb_true_r in Hwin. exact Hwin.
Qed.

(** The merge loop of composite_best_server.py, seen from one cell. *)
Lemma server_loop_cell cs g y x layers st :
  server_ok g st ->
  server_cell (foldl (BestServer.merge_layer cs g) st layers) y x
  = foldl (gated_step valid Py.u8) (server_cell st y x)
          (server_values_at (color_map cs) g layers y x).
Proof.
  revert st. induction layers as [|l layers IH]; intros st Hok; simpl; [reflexivity|].
  destruct (server_merge_cell cs g st l y x Hok) as (Hok' & Hcell).
  rewrite (IH _ Hok'). unfold server_values_at; simpl.
  destruct (landing g (BestServer.base l) y x) as [c|]; simpl; f_equal; exact Hcell.
Qed.

(** The discovery loop numbers the layers 1, 2, 3, ... and deals the
    palette out in turn. *)
Lemma discover_fold kml_files : forall acc,
  acc.1 = Z.of_nat (length acc.2) ->
  (forall k l, acc.2 !! k = Some l ->
     BestServer.index l = Z.of_nat k + 1
     /\ BestServer.SERVER_PALETTE !! (k mod 10)%nat = Some (BestServer.display_color l)) ->
  let out := foldl BestServer.discover_step acc kml_files in
  forall k l, out.2 !! k = Some l ->
    BestServer.index l = Z.of_nat k + 1
    /\ BestServer.SERVER_PALETTE !! (k mod 10)%nat = Some (BestServer.display_color l).
Proof.
  induction kml_files as [|[kml layer] files IH]; intros [i layers] Hi Hall;
    cbn -[Nat.modulo Z.modulo] in *; [exact Hall|].
  apply IH; destruct (contains "composite" kml); try assumption;
    destruct layer as [base|]; try assumption; cbn -[Nat.modulo Z.modulo].
  - rewrite length_app. cbn. lia.
  - intros k l Hk. apply lookup_app_Some in Hk as [Hk | [Hlen Hk]]; [exact (Hall k l Hk)|].
    destruct (k - length layers)%nat as [|n] eqn:Hn; [|destruct n; discriminate].
    injection Hk as <-. cbn -[Nat.modulo Z.modulo].
    assert (k = length layers) as -> by lia.
    split; [lia|].
    subst i. change (Z.of_nat 10) with 10.
    replace (Z.to_nat (Z.of_nat (length layers) mod 10)) with (length layers mod 10)%nat
      by (rewrite <- (Nat2Z.id (length layers mod 10)), Nat2Z.inj_mod; reflexivity).
    assert (Hlt : (length layers mod 10 < length BestServer.SERVER_PALETTE)%nat)
      by (change (length BestServer.SERVER_PALETTE) with 10%nat;
          apply Nat.mod_upper_bound; lia).
    apply lookup_lt_is_Some in Hlt as [c Hc]. rewrite Hc. reflexivity.
Qed.

Lemma discover_nth kml_files k l :
  BestServer.discover kml_files !! k = Some l ->
  BestServer.index l = Z.of_nat k + 1
  /\ BestServer.SERVER_PALETTE !! (k mod 10)%nat = Some (BestServer.display_color l).
Proof.
  apply (discover_fold kml_files (0, [])); [reflexivity|].
  intros k' l' Hk. inversion Hk.
Qed.

Lemma discover_bases kml_files :
  BestServer.base <$> BestServer.discover kml_files
  = omap (fun '(kml, layer) => if contains "composite" kml then None else layer)
         kml_files.
Proof.
  unfold BestServer.discover.
  assert (H : forall acc,
             BestServer.base <$> (foldl BestServer.discover_step acc kml_files).2
             = (BestServer.base <$> acc.2)
               ++ omap (fun '(kml, layer) =>
                          if contains "composite" kml then None else layer) kml_files).
  { induction kml_files as [|[kml layer] files IH]; intros [i layers]; simpl.
    - rewrite app_nil_r. reflexivity.
    - rewrite IH. destruct (contains "composite" kml); [reflexivity|].
      destruct layer as [base|]; [|reflexivity].
      simpl. rewrite fmap_app, <- app_assoc. reflexivity. }
  apply (H (0, [])).
Qed.

(** X4. The discovery loop of composite_best_server.py keeps, in the
    order found, the files that load and whose path does not hold
    "composite"; it numbers them 1, 2, 3, ... and gives the k-th of them
    (from 0) the palette colour k mod 10, so that two layers ten apart
    are painted alike. *)
Theorem server_layers_numbered (kml_files : list (string * option MapLayer)) :
  let layers := BestServer.discover kml_files in
  BestServer.base <$> layers
  = omap (fun '(kml, layer) => if contains "composite" kml then None else layer)
         kml_files
  /\ (forall k l,
         layers !! k = Some l ->
         BestServer.index l = Z.of_nat k + 1
         /\ BestServer.SERVER_PALETTE !! (k mod 10)%nat
            = Some (BestServer.display_color l))
  /\ (forall k l l',
         layers !! k = Some l -> layers !! (k + 10)%nat = Some l' ->
         BestServer.display_color l' = BestServer.display_color l).
Proof.
  intros layers. split; [apply discover_bases|]. split; [apply discover_nth|].
  intros k l l' Hk Hk'.
  destruct (discover_nth _ _ _ Hk) as [_ Hc].
  destruct (discover_nth _ _ _ Hk') as [_ Hc'].
  replace ((k + 10) mod 10)%nat with (k mod 10)%nat in Hc'
    by (rewrite <- (Nat.Div0.add_mod_idemp_r k 10 10); simpl; rewrite Nat.add_0_r;
        reflexivity).
  congruence.
Qed.

(** A cell that exactly one layer owns gets that layer's colour. *)
Lemma paint_owned (owner : ndarray Z) (y x : Z) layers l :
  NoDup (BestServer.index <$> layers) -> l ∈ layers ->
  cell owner y x = BestServer.index l ->
  forall final,
    cell (foldl (BestServer.paint_layer owner) final layers) y x
    = opaque (BestServer.display_color l).
Proof.
  induction layers as [|l0 layers IH]; intros Hnd Hin Hown final;
    [inversion Hin|].
  rewrite fmap_cons in Hnd. apply NoDup_cons in Hnd as [Hfresh Hnd].
  apply elem_of_cons in Hin as [-> | Hin].
  - cbn [foldl]. rewrite paint_unowned.
    + simpl. rewrite bool_decide_eq_true_2; [reflexivity | exact Hown].
    + apply Forall_forall. intros l' Hl' Heq. apply Hfresh.
      rewrite <- Hown, Heq. apply list_elem_of_fmap. exists l'. split; [reflexivity | exact Hl'].
  - cbn [foldl]. apply IH; assumption.
Qed.

Lemma discover_nodup kml_files :
  NoDup (BestServer.index <$> BestServer.discover kml_files).
Proof.
  apply NoDup_alt. intros i j a Hi Hj.
  rewrite list_lookup_fmap in Hi, Hj.
  destruct (BestServer.discover kml_files !! i) as [li|] eqn:Hli; [|discriminate].
  destruct (BestServer.discover kml_files !! j) as [lj|] eqn:Hlj; [|discriminate].
  destruct (discover_nth _ _ _ Hli) as [Hii _].
  destruct (discover_nth _ _ _ Hlj) as [Hjj _].
  simpl in Hi, Hj. injection Hi as Hi. injection Hj as Hj. lia.
Qed.

Lemma discover_range kml_files l :
  l ∈ BestServer.discover kml_files ->
  1 <= BestServer.index l <= Z.of_nat (length (BestServer.discover kml_files)).
Proof.
  intros Hin. apply list_elem_of_lookup in Hin as [k Hk].
  destruct (discover_nth _ _ _ Hk) as [Hi _].
  apply lookup_lt_Some in Hk. lia.
Qed.

Lemma le_lt_trans (x y z : spec_float) :
  Py.le x y = true -> Py.lt y z = true -> Py.lt x z = true.
Proof. float_cases. Qed.

Lemma valid_below_undefined t :
  valid t = true -> Py.lt t UNDEFINED_PATH_LOSS = true.
Proof.
  intros Hle. apply (le_lt_trans _ _ _ Hle). reflexivity.
Qed.

Lemma server_values_elem cm g layers y x t i :
  (t, i) ∈ server_values_at cm g layers y x
  <-> exists l c, l ∈ layers /\ landing g (BestServer.base l) y x = Some c
                  /\ t = decode_value cm c /\ i = BestServer.index l.
Proof.
  unfold server_values_at. rewrite list_elem_of_omap. split.
  - intros (l & Hin & Hl). destruct (landing g (BestServer.base l) y x) as [c|] eqn:Hc;
      [|discriminate].
    injection Hl as <- <-. exists l, c. repeat split; assumption.
  - intros (l & c & Hin & Hc & -> & ->). exists l. split; [exact Hin|].
    rewrite Hc. reflexivity.
Qed.

(** X5. composite_best_server.py with at most 255 layers, end to end at
    one pixel: when no layer brings the pixel a value of at most
    VALID_THRESHOLD_DB, the pixel keeps UNDEFINED and owner 0 and the
    painted image is transparent there; otherwise the pixel records the
    least such value, its owner is the number of a layer that brings this
    value, and the painted image shows that layer's palette colour,
    opaque. No layer brings a valid value below the recorded one. *)
Theorem best_server_paints_winner (cs : ColorScale) (g : geometry)
    (kml_files : list (string * option MapLayer)) (y x : Z) :
  let layers := BestServer.discover kml_files in
  (length layers <= 255)%nat ->
  let st := foldl (BestServer.merge_layer cs g) (BestServer.blank g) layers in
  let v := cell (BestServer.master_loss st) y x in
  let owner := cell (BestServer.master_owner_id st) y x in
  let p := cell (BestServer.paint g (BestServer.master_owner_id st) layers) y x in
  (v = UNDEFINED_PATH_LOSS /\ owner = 0 /\ p = transparent
   \/ exists l c,
        l ∈ layers /\ landing g (BestServer.base l) y x = Some c
        /\ v = decode_value (color_map cs) c
        /\ Py.le v VALID_THRESHOLD_DB = true
        /\ owner = BestServer.index l
        /\ p = opaque (BestServer.display_color l))
  /\ (forall l c,
         l ∈ layers -> landing g (BestServer.base l) y x = Some c ->
         Py.le (decode_value (color_map cs) c) VALID_THRESHOLD_DB = true ->
         Py.lt (decode_value (color_map cs) c) v = false).
Proof.
  intros layers Hlen st v owner p.
  pose proof (server_loop_cell cs g y x layers (BestServer.blank g)
                (server_ok_blank g)) as Hloop.
  fold st in Hloop. unfold server_cell in Hloop.
  change (cell (BestServer.master_loss st) y x) with v in Hloop.
  change (cell (BestServer.master_owner_id st) y x) with owner in Hloop.
  change (cell (BestServer.master_loss (BestServer.blank g)) y x,
          cell (BestServer.master_owner_id (BestServer.blank g)) y x)
    with (UNDEFINED_PATH_LOSS, 0) in Hloop.
  destruct (gated_steps_least valid Py.u8 (UNDEFINED_PATH_LOSS, 0)
              (server_values_at (color_map cs) g layers y x)) as [Hs Hleast].
  rewrite <- Hloop in Hs, Hleast. cbn [fst snd] in Hs, Hleast.
  split.
  - destruct Hs as [Hs | (i & Hin & Hi & Hok & _)].
    + left. injection Hs as Hv Ho. repeat split; try assumption.
      unfold p, BestServer.paint. rewrite paint_unowned; [reflexivity|].
      apply Forall_forall. intros l Hl. fold owner. rewrite Ho.
      pose proof (discover_range kml_files l Hl). lia.
    + right. apply server_values_elem in Hin as (l & c & Hl & Hc & Hv & ->).
      exists l, c.
      pose proof (discover_range kml_files l Hl) as Hrange. fold layers in Hrange.
      assert (Ho : owner = BestServer.index l)
        by (rewrite Hi; unfold Py.u8; apply Z.mod_small; lia).
      repeat split; try assumption.
      unfold p, BestServer.paint. apply paint_owned;
        [apply discover_nodup | exact Hl | exact Ho].
  - intros l c Hl Hc Hvalid. apply (Hleast _ (BestServer.index l)); [|exact Hvalid].
    apply server_values_elem. exists l, c. repeat split; assumption.
Qed.

(** A yellow layer (140.0 dB) and a green one (90.0 dB) on one pixel. *)
Lemma best_server_paints_winner_witness :
  let kml_files := [ ("a.kml"%string, Some (one_pixel "a.kml" yellow));
                     ("b.kml"%string, Some (one_pixel "b.kml" green)) ] in
  let layers := BestServer.discover kml_files in
  let st := foldl (BestServer.merge_layer overlap_scale unit_geometry)
                  (BestServer.blank unit_geometry) layers in
  (length layers <= 255)%nat
  /\ forall l c,
       l ∈ layers -> landing unit_geometry (BestServer.base l) 0 0 = Some c ->
       Py.le (decode_value (color_map overlap_scale) c) VALID_THRESHOLD_DB = true ->
       Py.lt (decode_value (color_map overlap_scale) c)
             (cell (BestServer.master_loss st) 0 0) = false.
Proof.
  intros kml_files layers st.
  assert (Hlen : (length layers <= 255)%nat) by (vm_compute; lia).
  split; [exact Hlen|].
  exact (proj2 (best_server_paints_winner overlap_scale unit_geometry kml_files 0 0 Hlen)).
Defined.

(** ** composite_redundancy.py against composite.py *)

Lemma valid_below (x y : spec_float) (v : spec_float) :
  Py.le x v = true -> Py.le y v = false -> Py.is_nan y = false ->
  Py.lt x y = true.
Proof. float_cases. Qed.

Lemma below_valid (x y : spec_float) :
  Py.lt x y = true -> valid y = true -> valid x = true.
Proof.
  intros Hlt Hy. apply (le_trans _ y); [apply lt_le; exact Hlt | exact Hy].
Qed.

Lemma valid_defined t : valid t = true -> Py.ne t UNDEFINED_PATH_LOSS = true.
Proof. intros Hv. apply lt_ne, valid_below_undefined, Hv. Qed.

Lemma tracks_step seen best overlap (v : Py.float32 * color) :
  tracks seen best overlap ->
  tracks (seen || valid v.1) (best_step best v) (overlap_step overlap v).
Proof.
  destruct best as [s p], overlap as [[loss visual] count], v as [t c].
  unfold tracks, best_step, overlap_step. cbn [fst snd].
  fold (valid t). destruct seen; cbn [orb].
  - intros [Heq Hs]. injection Heq as -> ->.
    destruct (Py.lt t s) eqn:Hlt; cbn [andb].
    + rewrite (below_valid _ _ Hlt Hs), (valid_defined _ (below_valid _ _ Hlt Hs)).
      cbn [fst]. split; [reflexivity | exact (below_valid _ _ Hlt Hs)].
    + cbn [fst]. split; [reflexivity | exact Hs].
  - intros (Heq & Hnan & Hs). injection Heq as -> ->.
    destruct (valid t) eqn:Ht.
    + rewrite (valid_below_undefined _ Ht), (valid_defined _ Ht),
        (valid_below _ _ _ Ht Hs Hnan).
      cbn [andb fst]. split; [reflexivity | exact Ht].
    + rewrite !andb_false_r. cbn [fst].
      destruct (Py.lt t s && Py.ne t UNDEFINED_PATH_LOSS) eqn:Hwin; cbn [fst].
      * apply andb_true_iff in Hwin as [Hlt _].
        repeat split; [exact (lt_not_nan _ _ Hlt) | exact Ht].
      * repeat split; assumption.
Qed.

Lemma tracks_steps values : forall seen best overlap,
  tracks seen best overlap ->
  tracks (seen || existsb (fun v => valid v.1) values)
         (foldl best_step best values) (foldl overlap_step overlap values).
Proof.
  induction values as [|v values IH]; intros seen best overlap H; cbn [foldl existsb].
  - rewrite orb_false_r. exact H.
  - rewrite orb_assoc. apply IH, tracks_step, H.
Qed.

Lemma valid_count_seen (values : list (Py.float32 * color)) :
  existsb (fun v => valid v.1) values = negb (valid_count values =? 0)%nat.
Proof.
  unfold valid_count, valid. induction values as [|[t c] values IH]; [reflexivity|].
  cbn [existsb List.filter fst].
  destruct (Py.le t VALID_THRESHOLD_DB); [reflexivity | exact IH].
Qed.

(** X6. composite_redundancy.py and composite.py on the same layers and
    table: the image the first saves is the image of the second with the
    pixels wiped whose counter is below MIN_OVERLAP_COUNT, the counter
    being the number of layers with a valid value there, modulo 256. And
    where at least one layer brings a valid value the two scripts record
    the same best value; elsewhere composite_redundancy.py records
    UNDEFINED. *)
Theorem overlap_masks_best_signal (cs : ColorScale) (g : geometry)
    (layers : list MapLayer) (y x : Z) :
  let best := foldl (Composite.merge_layer cs g) (Composite.blank g) layers in
  let st := foldl (Redundancy.merge_layer cs g) (Redundancy.blank g) layers in
  let n := valid_count (values_at (color_map cs) g layers y x) in
  cell (Redundancy.coverage_count st) y x = Z.of_nat n mod 256
  /\ cell (Redundancy.overlap_filter st) y x
     = (if Z.of_nat n mod 256 <? MIN_OVERLAP_COUNT then transparent
        else cell (Composite.master_rgba best) y x)
  /\ cell (Redundancy.master_loss st) y x
     = (if (n =? 0)%nat then UNDEFINED_PATH_LOSS
        else cell (Composite.master_loss best) y x).
Proof.
  intros best st n.
  pose proof (redundancy_count cs g layers y x) as Hcount. fold st n in Hcount.
  pose proof (redundancy_loop_cell cs g y x layers (Redundancy.blank g)
                (redundancy_ok_blank g)) as Hr.
  pose proof (composite_loop_cell cs g y x layers (Composite.blank g)
                (composite_ok_blank g)) as Hc.
  fold st in Hr. fold best in Hc.
  pose proof (tracks_steps (values_at (color_map cs) g layers y x) false
                (best_cell (Composite.blank g) y x)
                (overlap_cell (Redundancy.blank g) y x)) as Ht.
  rewrite <- Hr, <- Hc, valid_count_seen in Ht. fold n in Ht. cbn [orb] in Ht.
  specialize (Ht (conj eq_refl (conj eq_refl eq_refl))).
  split; [exact Hcount|].
  assert (Hpix : cell (Redundancy.overlap_filter st) y x
                 = if cell (Redundancy.coverage_count st) y x <? MIN_OVERLAP_COUNT
                   then transparent else cell (Redundancy.master_rgba st) y x)
    by reflexivity.
  rewrite Hpix, Hcount. clear Hpix.
  unfold tracks, overlap_cell, best_cell in Ht. cbn [fst snd] in Ht.
  destruct (n =? 0)%nat eqn:Hn; cbn [negb] in Ht.
  - apply Nat.eqb_eq in Hn. destruct Ht as (Heq & _). injection Heq as Hl Hv.
    rewrite Hn. split; [reflexivity | exact Hl].
  - destruct Ht as (Heq & _). injection Heq as Hl Hv. rewrite Hv.
    split; [reflexivity | exact Hl].
Qed.

(** ** The lines of the table *)

Lemma sep_not_space c : is_sep c = true -> is_space c = false.
Proof.
  destruct c as [[] [] [] [] [] [] [] []]; intros H; try discriminate H; reflexivity.
Qed.

Lemma count_sep_lstrip s : count_sep (lstrip s) = count_sep s.
Proof.
  induction s as [|c s IH]; [reflexivity|].
  cbn [lstrip]. destruct (is_space c) eqn:Hc; [|reflexivity].
  rewrite IH. cbn [count_sep].
  destruct (is_sep c) eqn:Hs; [|reflexivity].
  rewrite (sep_not_space c Hs) in Hc. discriminate.
Qed.

Lemma count_sep_rev s : forall acc,
  count_sep (rev_string acc s) = (count_sep acc + count_sep s)%nat.
Proof.
  induction s as [|c s IH]; intros acc; cbn [rev_string count_sep]; [lia|].
  rewrite IH. cbn [count_sep]. lia.
Qed.

Lemma count_sep_strip s : count_sep (strip s) = count_sep s.
Proof.
  unfold strip. rewrite count_sep_rev, count_sep_lstrip, count_sep_rev, count_sep_lstrip.
  reflexivity.
Qed.

Lemma push_length c parts : parts <> [] -> length (push c parts) = length parts.
Proof. destruct parts; [congruence | reflexivity]. Qed.

(** [re.split] cuts at every separator: one part more than there are
    separators. *)
Lemma re_split_from_length s : forall skipping,
  length (re_split_from skipping s) = S (count_sep s).
Proof.
  induction s as [|c s IH]; intros skipping; [reflexivity|].
  cbn [re_split_from count_sep]. destruct (is_sep c).
  - cbn [length]. rewrite IH. reflexivity.
  - destruct (skipping && is_space c); [apply IH|].
    rewrite push_length; [apply IH|].
    intros Hnil. specialize (IH false). rewrite Hnil in IH. discriminate.
Qed.

Lemma re_split_length s : length (re_split s) = S (count_sep s).
Proof. apply re_split_from_length. Qed.

(** X7. A line of the table with fewer than three of the separators
    ; : , has fewer than four parts: load_lcf takes nothing from it,
    whatever its fields are. *)
Theorem short_line_ignored (py_float : string -> option Py.float)
    (py_int : string -> option Z) (cs : ColorScale) (line : string) :
  (count_sep line < 3)%nat ->
  parse_line py_float py_int line = None
  /\ load_line py_float py_int cs line = cs.
Proof.
  intros Hshort.
  assert (Hnone : parse_line py_float py_int line = None).
  { unfold parse_line.
    destruct (bool_decide (strip line = EmptyString) || is_comment (strip line));
      [reflexivity|].
    pose proof (re_split_length (strip line)) as Hlen.
    rewrite count_sep_strip in Hlen.
    destruct (re_split (strip line)) as [|p0 [|p1 [|p2 [|p3 rest]]]];
      try reflexivity.
    cbn [length] in Hlen. lia. }
  split; [exact Hnone|]. unfold load_line. rewrite Hnone. reflexivity.
Qed.

(** A value and two colour components only. *)
Lemma short_line_ignored_witness :
  (count_sep "80; 255, 0" < 3)%nat
  /\ parse_line demo_float demo_int "80; 255, 0" = None
  /\ load_line demo_float demo_int demo_scale "80; 255, 0" = demo_scale.
Proof.
  assert (Hshort : (count_sep "80; 255, 0" < 3)%nat) by (vm_compute; lia).
  split; [exact Hshort|].
  exact (short_line_ignored demo_float demo_int demo_scale "80; 255, 0" Hshort).
Defined.

Lemma append_cons c (s t : string) : String c s +:+ t = String c (s +:+ t).
Proof. reflexivity. Qed.

Lemma append_nil_l (t : string) : EmptyString +:+ t = t.
Proof. reflexivity. Qed.

Lemma rev_string_rev s : forall a b,
  rev_string a (rev_string b s) = rev_string (s +:+ a) b.
Proof.
  induction s as [|c s IH]; intros a b; [reflexivity|].
  cbn [rev_string]. rewrite IH, append_cons. reflexivity.
Qed.

Lemma rev_string_app s t : forall acc,
  rev_string acc (s +:+ t) = rev_string (rev_string acc s) t.
Proof.
  induction s as [|c s IH]; intros acc; [reflexivity|].
  rewrite append_cons. cbn [rev_string]. apply IH.
Qed.

Lemma append_nil_r s : s +:+ EmptyString = s.
Proof.
  induction s as [|c s IH]; [reflexivity|]. rewrite append_cons. f_equal. exact IH.
Qed.

Lemma append_assoc (s t u : string) : (s +:+ t) +:+ u = s +:+ (t +:+ u).
Proof.
  induction s as [|c s IH]; [reflexivity|]. rewrite !append_cons. f_equal. exact IH.
Qed.

(** [strip] leaves alone a line with no white space at its ends. *)
Lemma strip_ends body c :
  lstrip (body +:+ String c EmptyString) = body +:+ String c EmptyString ->
  is_space c = false ->
  strip (body +:+ String c EmptyString) = body +:+ String c EmptyString.
Proof.
  intros Hl Hc. unfold strip. rewrite Hl, rev_string_app.
  cbn [rev_string lstrip]. rewrite Hc.
  cbn [rev_string]. rewrite rev_string_rev. reflexivity.
Qed.

Lemma plain_last s :
  plain s = true -> s <> EmptyString ->
  exists body c, s = body +:+ String c EmptyString /\ is_space c = false.
Proof.
  induction s as [|c s IH]; intros Hp Hne; [congruence|].
  cbn [plain] in Hp. apply andb_true_iff in Hp as [Hc Hs].
  apply andb_true_iff in Hc as [_ Hc]. apply negb_true_iff in Hc.
  destruct s as [|c' s'].
  - exists EmptyString, c. split; [reflexivity | exact Hc].
  - destruct (IH Hs) as (body & c0 & Heq & Hc0); [discriminate|].
    exists (String c body), c0. split; [rewrite append_cons; f_equal; exact Heq | exact Hc0].
Qed.

Lemma split_field p s rest : forall skipping,
  plain p = true -> is_sep s = true ->
  re_split_from skipping (p +:+ String s rest) = p :: re_split_from true rest.
Proof.
  induction p as [|c p IH]; intros skipping Hp Hs.
  - rewrite append_nil_l. cbn [re_split_from]. rewrite Hs. reflexivity.
  - cbn [plain] in Hp. apply andb_true_iff in Hp as [Hc Hp].
    apply andb_true_iff in Hc as [Hsep Hsp].
    apply negb_true_iff in Hsep, Hsp.
    rewrite append_cons. cbn [re_split_from]. rewrite Hsep, Hsp, andb_false_r.
    rewrite (IH false Hp Hs). reflexivity.
Qed.

Lemma split_last p : forall skipping,
  plain p = true -> re_split_from skipping p = [p].
Proof.
  induction p as [|c p IH]; intros skipping Hp; [reflexivity|].
  cbn [plain] in Hp. apply andb_true_iff in Hp as [Hc Hp].
  apply andb_true_iff in Hc as [Hsep Hsp].
  apply negb_true_iff in Hsep, Hsp.
  cbn [re_split_from]. rewrite Hsep, Hsp, andb_false_r, (IH false Hp). reflexivity.
Qed.

Lemma split_spaces w rest :
  all_space w = true ->
  re_split_from true (w +:+ rest) = re_split_from true rest.
Proof.
  induction w as [|c w IH]; intros Hw; [reflexivity|].
  cbn [all_space] in Hw. apply andb_true_iff in Hw as [Hc Hw].
  rewrite append_cons. cbn [re_split_from].
  destruct (is_sep c) eqn:Hsep; [rewrite (sep_not_space c Hsep) in Hc; discriminate|].
  rewrite Hc. cbn [andb]. exact (IH Hw).
Qed.

Lemma sep_not_hash c : is_sep c = true -> c <> "#"%char.
Proof. intros H ->. discriminate H. Qed.

Lemma four_fields_split p0 s1 w1 p1 s2 w2 p2 s3 w3 p3 :
  plain p0 = true -> plain p1 = true -> plain p2 = true -> plain p3 = true ->
  is_sep s1 = true -> is_sep s2 = true -> is_sep s3 = true ->
  all_space w1 = true -> all_space w2 = true -> all_space w3 = true ->
  re_split (four_fields p0 s1 w1 p1 s2 w2 p2 s3 w3 p3) = [p0; p1; p2; p3].
Proof.
  intros H0 H1 H2 H3 Hs1 Hs2 Hs3 Hw1 Hw2 Hw3. unfold re_split, four_fields.
  rewrite (split_field p0 s1 _ false H0 Hs1).
  rewrite (split_spaces w1 _ Hw1), (split_field p1 s2 _ true H1 Hs2).
  rewrite (split_spaces w2 _ Hw2), (split_field p2 s3 _ true H2 Hs3).
  rewrite (split_spaces w3 _ Hw3), (split_last p3 true H3). reflexivity.
Qed.

Lemma lstrip_plain p rest s :
  plain p = true -> is_sep s = true ->
  lstrip (p +:+ String s rest) = p +:+ String s rest.
Proof.
  intros Hp Hs. destruct p as [|c p]; rewrite ?append_nil_l, ?append_cons; cbn [lstrip].
  - rewrite (sep_not_space s Hs). reflexivity.
  - cbn [plain] in Hp. apply andb_true_iff in Hp as [Hc _].
    apply andb_true_iff in Hc as [_ Hsp]. apply negb_true_iff in Hsp.
    rewrite Hsp. reflexivity.
Qed.

Lemma four_fields_strip p0 s1 w1 p1 s2 w2 p2 s3 w3 p3 :
  plain p0 = true -> plain p3 = true -> p3 <> EmptyString -> is_sep s1 = true ->
  strip (four_fields p0 s1 w1 p1 s2 w2 p2 s3 w3 p3)
  = four_fields p0 s1 w1 p1 s2 w2 p2 s3 w3 p3.
Proof.
  intros H0 H3 Hne Hs1.
  destruct (plain_last p3 H3 Hne) as (body & c & -> & Hc).
  assert (Hline : exists front,
             four_fields p0 s1 w1 p1 s2 w2 p2 s3 w3 (body +:+ String c EmptyString)
             = front +:+ String c EmptyString).
  { exists (p0 +:+ String s1 (w1 +:+ p1 +:+ String s2 (w2 +:+ p2 +:+ String s3 (w3 +:+ body)))).
    unfold four_fields. repeat rewrite ?append_assoc, ?append_cons. reflexivity. }
  destruct Hline as [front Hline].
  rewrite Hline. apply strip_ends; [|exact Hc].
  rewrite <- Hline. unfold four_fields. apply lstrip_plain; assumption.
Qed.

Lemma four_fields_comment p0 s1 rest :
  is_sep s1 = true -> is_comment (p0 +:+ String s1 rest) = is_comment p0.
Proof.
  intros Hs. destruct p0 as [|c p0]; [|reflexivity].
  rewrite append_nil_l. unfold is_comment.
  destruct s1 as [[] [] [] [] [] [] [] []]; try discriminate Hs; reflexivity.
Qed.

Lemma four_fields_not_empty p0 s1 rest : p0 +:+ String s1 rest <> EmptyString.
Proof. destruct p0; discriminate. Qed.

(** X8. A line of four fields without white space, separated each by
    one of ; : , and any white space after it, is read field by field:
    unless the first field begins with #, load_lcf takes from it the
    entry that float() and int() make of the four fields, and nothing
    when one of them raises ValueError. *)
Theorem four_fields_parsed (py_float : string -> option Py.float)
    (py_int : string -> option Z)
    (p0 : string) (s1 : ascii) (w1 p1 : string) (s2 : ascii) (w2 p2 : string)
    (s3 : ascii) (w3 p3 : string) :
  plain p0 = true -> plain p1 = true -> plain p2 = true -> plain p3 = true ->
  p3 <> EmptyString ->
  is_sep s1 = true -> is_sep s2 = true -> is_sep s3 = true ->
  all_space w1 = true -> all_space w2 = true -> all_space w3 = true ->
  parse_line py_float py_int (four_fields p0 s1 w1 p1 s2 w2 p2 s3 w3 p3)
  = if is_comment p0 then None
    else match py_float p0, py_int p1, py_int p2, py_int p3 with
         | Some db, Some r, Some g, Some b => Some (db, r, g, b)
         | _, _, _, _ => None
         end.
Proof.
  intros H0 H1 H2 H3 Hne Hs1 Hs2 Hs3 Hw1 Hw2 Hw3. unfold parse_line.
  rewrite (four_fields_strip _ _ _ _ _ _ _ _ _ _ H0 H3 Hne Hs1).
  rewrite (four_fields_split _ _ _ _ _ _ _ _ _ _ H0 H1 H2 H3 Hs1 Hs2 Hs3 Hw1 Hw2 Hw3).
  unfold four_fields.
  rewrite (four_fields_comment p0 s1 _ Hs1).
  rewrite bool_decide_eq_false_2 by apply four_fields_not_empty.
  cbn [orb]. reflexivity.
Qed.

(** The line "80: 255,  0;0" of a SPLAT table. *)
Lemma four_fields_parsed_witness :
  parse_line demo_float demo_int "80: 255,  0;0"
  = Some (ratio 80 1, 255, 0, 0).
Proof.
  exact (four_fields_parsed demo_float demo_int
           "80" ":" " " "255" "," "  " "0" ";" "" "0"
           eq_refl eq_refl eq_refl eq_refl ltac:(discriminate)
           eq_refl eq_refl eq_refl eq_refl eq_refl eq_refl).
Defined.

(** ** The union box *)

Lemma le_refl (x : spec_float) : Py.is_nan x = false -> Py.le x x = true.
Proof.
  unfold Py.le, Py.is_nan, SFleb, SFcompare.
  destruct x as [[]|[]| |[] m e]; simpl; try congruence;
    rewrite Z.compare_refl, Pos.compare_cont_refl; reflexivity.
Qed.

(** Python's [max] over numbers returns an item that none of the items
    exceeds. *)
Lemma max_upper xs : forall x,
  Forall (fun y => Py.is_nan y = false) (x :: xs) ->
  forall y, y ∈ x :: xs -> Py.le y (Py.max x xs) = true.
Proof.
  unfold Py.max. induction xs as [|z xs IH]; intros x Hnum y Hin.
  - apply list_elem_of_singleton in Hin as ->. apply le_refl.
    apply Forall_inv in Hnum. exact Hnum.
  - cbn [foldl]. inversion Hnum as [|? ? Hx Hrest]; subst.
    inversion Hrest as [|? ? Hz Hxs]; subst.
    set (m := if Py.lt x z then z else x).
    assert (Hm : Py.is_nan m = false) by (unfold m; destruct (Py.lt x z); assumption).
    assert (Hxm : Py.le x m = true).
    { unfold m. destruct (Py.lt x z) eqn:Hlt; [apply lt_le, Hlt | apply le_refl, Hx]. }
    assert (Hzm : Py.le z m = true).
    { unfold m. destruct (Py.lt x z) eqn:Hlt; [apply le_refl, Hz|].
      apply le_total; assumption. }
    assert (Hmm : Py.le m (foldl (fun m item => if Py.lt m item then item else m) m xs)
                  = true)
      by (apply IH; [constructor; assumption | left]).
    apply elem_of_cons in Hin as [-> | Hin]; [exact (le_trans _ _ _ Hxm Hmm)|].
    apply elem_of_cons in Hin as [-> | Hin]; [exact (le_trans _ _ _ Hzm Hmm)|].
    apply IH; [constructor; assumption | right; exact Hin].
Qed.

Lemma min_lower xs : forall x,
  Forall (fun y => Py.is_nan y = false) (x :: xs) ->
  forall y, y ∈ x :: xs -> Py.le (Py.min x xs) y = true.
Proof.
  unfold Py.min. induction xs as [|z xs IH]; intros x Hnum y Hin.
  - apply list_elem_of_singleton in Hin as ->. apply le_refl.
    apply Forall_inv in Hnum. exact Hnum.
  - cbn [foldl]. inversion Hnum as [|? ? Hx Hrest]; subst.
    inversion Hrest as [|? ? Hz Hxs]; subst.
    set (m := if Py.lt z x then z else x).
    assert (Hm : Py.is_nan m = false) by (unfold m; destruct (Py.lt z x); assumption).
    assert (Hxm : Py.le m x = true).
    { unfold m. destruct (Py.lt z x) eqn:Hlt; [apply lt_le, Hlt | apply le_refl, Hx]. }
    assert (Hzm : Py.le m z = true).
    { unfold m. destruct (Py.lt z x) eqn:Hlt; [apply le_refl, Hz|].
      apply le_total; assumption. }
    assert (Hmm : Py.le (foldl (fun m item => if Py.lt item m then item else m) m xs) m
                  = true)
      by (apply IH; [constructor; assumption | left]).
    apply elem_of_cons in Hin as [-> | Hin]; [exact (le_trans _ _ _ Hmm Hxm)|].
    apply elem_of_cons in Hin as [-> | Hin]; [exact (le_trans _ _ _ Hmm Hzm)|].
    apply IH; [constructor; assumption | right; exact Hin].
Qed.

(** [max] and [min] return one of the items. *)
Lemma max_item xs : forall x, Py.max x xs ∈ x :: xs.
Proof.
  unfold Py.max. induction xs as [|z xs IH]; intros x; cbn [foldl]; [left|].
  set (m := if Py.lt x z then z else x). specialize (IH m).
  apply elem_of_cons in IH as [Heq | IH]; [|right; right; exact IH].
  change (foldl (fun m item => if Py.lt m item then item else m) m xs ∈ x :: z :: xs).
  rewrite Heq. unfold m. destruct (Py.lt x z); [right; left | left].
Qed.

Lemma min_item xs : forall x, Py.min x xs ∈ x :: xs.
Proof.
  unfold Py.min. induction xs as [|z xs IH]; intros x; cbn [foldl]; [left|].
  set (m := if Py.lt z x then z else x). specialize (IH m).
  apply elem_of_cons in IH as [Heq | IH]; [|right; right; exact IH].
  change (foldl (fun m item => if Py.lt item m then item else m) m xs ∈ x :: z :: xs).
  rewrite Heq. unfold m. destruct (Py.lt z x); [right; left | left].
Qed.

(** What a canvas geometry that was computed is made of. *)
Lemma canvas_geometry_inv ref_layer others g :
  canvas_geometry ref_layer others = inr g ->
  global_north g = Py.max (north ref_layer) (north <$> others)
  /\ global_south g = Py.min (south ref_layer) (south <$> others)
  /\ global_east g = Py.max (east ref_layer) (east <$> others)
  /\ global_west g = Py.min (west ref_layer) (west <$> others)
  /\ Py.int_of_float (Py.fmul (Py.fsub (global_north g) (global_south g)) (ppd_lat g))
     = inr (master_h g)
  /\ Py.int_of_float (Py.fmul (Py.fsub (global_east g) (global_west g)) (ppd_lon g))
     = inr (master_w g)
  /\ 0 <= master_h g /\ 0 <= master_w g.
Proof.
  unfold canvas_geometry. destruct (png ref_layer) as [img|]; [|discriminate].
  simpl.
  destruct (Py.int_truediv (nrows img) _) as [?|plat]; [discriminate|].
  destruct (Py.int_truediv (ncols img) _) as [?|plon]; [discriminate|].
  simpl.
  destruct (Py.int_of_float (Py.fmul (Py.fsub _ _) plat)) as [?|mh] eqn:Hh;
    [discriminate|].
  destruct (Py.int_of_float (Py.fmul (Py.fsub _ _) plon)) as [?|mw] eqn:Hw;
    [discriminate|].
  simpl. destruct ((mh <? 0) || (mw <? 0)) eqn:Hneg; [discriminate|].
  intros [= <-]. simpl. apply orb_false_iff in Hneg as [Hmh Hmw].
  repeat split; try assumption; lia.
Qed.

Lemma elem_of_bounds (f : MapLayer -> Py.float) ref_layer others v :
  v ∈ f ref_layer :: (f <$> others) ->
  exists l, l ∈ ref_layer :: others /\ f l = v.
Proof.
  change (f ref_layer :: (f <$> others)) with (f <$> ref_layer :: others).
  intros Hin. apply list_elem_of_fmap in Hin as (l & -> & Hl). exists l. split; [exact Hl | reflexivity].
Qed.

(** The box of the canvas holds the box of every layer, when no bound
    is a NaN. *)
Lemma canvas_holds_layer ref_layer others g l :
  canvas_geometry ref_layer others = inr g ->
  Forall box_of_numbers (ref_layer :: others) ->
  l ∈ ref_layer :: others ->
  Py.le (north l) (global_north g) = true
  /\ Py.le (global_south g) (south l) = true
  /\ Py.le (east l) (global_east g) = true
  /\ Py.le (global_west g) (west l) = true.
Proof.
  intros Hg Hnum Hl.
  destruct (canvas_geometry_inv _ _ _ Hg) as (Hn & Hs & He & Hw & _).
  assert (Hall : forall (f : MapLayer -> Py.float),
             (forall l, box_of_numbers l -> Py.is_nan (f l) = false) ->
             Forall (fun y => Py.is_nan y = false) (f ref_layer :: (f <$> others))).
  { intros f Hf. change (f ref_layer :: (f <$> others)) with (f <$> ref_layer :: others).
    apply Forall_fmap. eapply Forall_impl; [exact Hnum|]. exact Hf. }
  assert (Hmem : forall (f : MapLayer -> Py.float),
             f l ∈ f ref_layer :: (f <$> others)).
  { intros f. change (f ref_layer :: (f <$> others)) with (f <$> ref_layer :: others).
    apply list_elem_of_fmap. exists l. split; [reflexivity | exact Hl]. }
  rewrite Hn, Hs, He, Hw. repeat split.
  - apply max_upper; [apply Hall; intros ? (? & ? & ? & ?); assumption | apply (Hmem north)].
  - apply min_lower; [apply Hall; intros ? (? & ? & ? & ?); assumption | apply (Hmem south)].
  - apply max_upper; [apply Hall; intros ? (? & ? & ? & ?); assumption | apply (Hmem east)].
  - apply min_lower; [apply Hall; intros ? (? & ? & ? & ?); assumption | apply (Hmem west)].
Qed.

(** X9. When the canvas geometry is computed, a layer whose north is the
    canvas's north starts at row 0 and a layer whose west is the canvas's
    west at column 0, and there are such layers; and when no bound of
    any layer is a NaN, the box of the canvas holds the box of every
    layer. *)
Theorem union_box_holds_layers (ref_layer : MapLayer) (others : list MapLayer)
    (g : geometry) :
  canvas_geometry ref_layer others = inr g ->
  Forall box_of_numbers (ref_layer :: others) ->
  (forall l, l ∈ ref_layer :: others ->
     Py.le (north l) (global_north g) = true
     /\ Py.le (global_south g) (south l) = true
     /\ Py.le (east l) (global_east g) = true
     /\ Py.le (global_west g) (west l) = true)
  /\ (exists l, l ∈ ref_layer :: others /\ north l = global_north g)
  /\ (exists l, l ∈ ref_layer :: others /\ west l = global_west g)
  /\ (forall l, north l = global_north g ->
        Py.int_of_float (Py.fmul (Py.fsub (global_north g) (north l)) (ppd_lat g))
        = inr 0)
  /\ (forall l, west l = global_west g ->
        Py.int_of_float (Py.fmul (Py.fsub (west l) (global_west g)) (ppd_lon g))
        = inr 0).
Proof.
  intros Hg Hnum.
  destruct (canvas_geometry_inv _ _ _ Hg) as (Hn & Hs & He & Hw & Hh & Hwd & _ & _).
  split; [|split; [|split; [|split]]].
  - intros l Hl. exact (canvas_holds_layer _ _ _ _ Hg Hnum Hl).
  - rewrite Hn. apply (elem_of_bounds north), max_item.
  - rewrite Hw. apply (elem_of_bounds west), min_item.
  - intros l ->.
    apply int_of_float_finite, fmul_finite in Hh as [Hns Hplat].
    apply fsub_finite in Hns as [Hfn _].
    apply int_of_zero, fmul_zero; [apply fsub_self|]; assumption.
  - intros l ->.
    apply int_of_float_finite, fmul_finite in Hwd as [Hew Hplon].
    apply fsub_finite in Hew as [_ Hfw].
    apply int_of_zero, fmul_zero; [apply fsub_self|]; assumption.
Qed.

(** The reference layer and the layer to its north-east. *)
Lemma union_box_holds_layers_witness :
  canvas_geometry reference_layer [far_layer] = inr union_geometry
  /\ Forall box_of_numbers [reference_layer; far_layer]
  /\ forall l, l ∈ [reference_layer; far_layer] ->
       Py.le (north l) (global_north union_geometry) = true
       /\ Py.le (global_south union_geometry) (south l) = true
       /\ Py.le (east l) (global_east union_geometry) = true
       /\ Py.le (global_west union_geometry) (west l) = true.
Proof.
  assert (Hg : canvas_geometry reference_layer [far_layer] = inr union_geometry)
    by (vm_compute; reflexivity).
  assert (Hnum : Forall box_of_numbers [reference_layer; far_layer])
    by (repeat constructor).
  split; [exact Hg|]. split; [exact Hnum|].
  exact (proj1 (union_box_holds_layers reference_layer [far_layer] union_geometry Hg Hnum)).
Defined.

(** ** A reference layer without height *)

Lemma flat_reference ref_layer others img :
  png ref_layer = Some img ->
  Py.is_zero (Py.fsub (north ref_layer) (south ref_layer)) = true ->
  canvas_geometry ref_layer others = inl ZeroDivisionError.
Proof.
  intros Himg Hflat. unfold canvas_geometry, Py.int_truediv.
  rewrite Himg, Hflat. reflexivity.
Qed.

(** X10. The first layer found is the reference of the canvas, and its
    box is divided by outside any try: when the difference of its north
    and south is zero, each of the three scripts ends in a
    ZeroDivisionError, after the table was loaded and the layers were
    announced, and saves nothing. *)
Theorem flat_reference_crashes (py_float : string -> option Py.float)
    (py_int : string -> option Z) (lines : list string)
    (kml_files : list (string * option MapLayer))
    (ref_layer : MapLayer) (img : ndarray color) :
  png ref_layer = Some img ->
  Py.is_zero (Py.fsub (north ref_layer) (south ref_layer)) = true ->
  (forall others,
      Composite.discover kml_files = ref_layer :: others ->
      (Composite.create_composite_map py_float py_int (Readable lines) kml_files).2
      = Raise ZeroDivisionError)
  /\ (forall first others,
        BestServer.discover kml_files = first :: others ->
        BestServer.base first = ref_layer ->
        (BestServer.create_composite_map py_float py_int (Readable lines) kml_files).2
        = Raise ZeroDivisionError)
  /\ (forall others,
        Redundancy.discover kml_files = ref_layer :: others ->
        (Redundancy.create_composite_map py_float py_int (Readable lines) kml_files).2
        = Raise ZeroDivisionError).
Proof.
  intros Himg Hflat. repeat split.
  - intros others Hd. unfold Composite.create_composite_map.
    rewrite load_lcf_found, Hd. cbv zeta.
    rewrite (flat_reference _ _ _ Himg Hflat). reflexivity.
  - intros first others Hd <-. unfold BestServer.create_composite_map.
    rewrite load_lcf_found, Hd. cbv zeta.
    rewrite (flat_reference _ _ _ Himg Hflat). reflexivity.
  - intros others Hd. unfold Redundancy.create_composite_map.
    rewrite load_lcf_found, Hd. cbv zeta.
    rewrite (flat_reference _ _ _ Himg Hflat). reflexivity.
Qed.

(** A flat layer found first, before a sound one. *)
Lemma flat_reference_crashes_witness :
  (Composite.create_composite_map demo_float demo_int (Readable demo_lines)
     [ ("flat.kml"%string, Some flat_layer);
       ("a.kml"%string, Some (one_pixel "a.kml" red)) ]).2
  = Raise ZeroDivisionError.
Proof.
  apply (proj1 (flat_reference_crashes demo_float demo_int demo_lines
                  [ ("flat.kml"%string, Some flat_layer);
                    ("a.kml"%string, Some (one_pixel "a.kml" red)) ]
                  flat_layer (np_full 1 1 red) eq_refl eq_refl)
               [one_pixel "a.kml" red]).
  reflexivity.
Defined.

(** ** Decoding *)

(** X11. The decoding loop of the three scripts, which for every key of
    the table masks the pixels of that colour, leaves at each pixel of
    the chunk what a lookup of the pixel's colour in the table gives:
    the table's value, rounded to float32, or UNDEFINED for a colour
    that is no key; and the result has the shape of the chunk. *)
Theorem decode_is_lookup (cm : gmap color Py.float) (src_chunk : ndarray color)
    (y x : Z) :
  shape (decode cm src_chunk) = shape src_chunk
  /\ cell (decode cm src_chunk) y x
     = match cm !! cell src_chunk y x with
       | Some db => Py.to_f32 db
       | None => UNDEFINED_PATH_LOSS
       end.
Proof. split; [apply decode_shape | apply decode_cell]. Qed.

(** ** Where the layers are laid *)

Lemma digits2_pos_bounds m :
  2 ^ (Zpos (digits2_pos m) - 1) <= Zpos m < 2 ^ Zpos (digits2_pos m).
Proof.
  induction m as [p IH|p IH|]; cbn [digits2_pos].
  - rewrite Pos2Z.inj_succ. change (Zpos p~1) with (2 * Zpos p + 1).
    replace (Z.succ (Zpos (digits2_pos p)) - 1) with (Z.succ (Zpos (digits2_pos p) - 1))
      by lia.
    rewrite !Z.pow_succ_r by lia. lia.
  - rewrite Pos2Z.inj_succ. change (Zpos p~0) with (2 * Zpos p).
    replace (Z.succ (Zpos (digits2_pos p)) - 1) with (Z.succ (Zpos (digits2_pos p) - 1))
      by lia.
    rewrite !Z.pow_succ_r by lia. lia.
  - simpl. lia.
Qed.

Lemma iter_xO m d : Zpos (Pos.iter xO m d) = Zpos m * 2 ^ Zpos d.
Proof.
  induction d as [|d IH] using Pos.peano_ind.
  - simpl. lia.
  - rewrite Pos.iter_succ.
    change (Zpos (Pos.iter xO m d)~0) with (2 * Zpos (Pos.iter xO m d)).
    rewrite IH, Pos2Z.inj_succ, Z.pow_succ_r by lia. lia.
Qed.

Lemma shl_align_value m e e' :
  e' <= e -> Zpos (shl_align m e e').1 = Zpos m * 2 ^ (e - e').
Proof.
  intros Hle. unfold shl_align.
  destruct (e' - e) as [|d|d] eqn:Hd; cbn [fst].
  - replace (e - e') with 0 by lia. lia.
  - lia.
  - rewrite iter_xO. f_equal. f_equal. lia.
Qed.

(** Among binary64 values in normal form the order by exponent, then
    mantissa, is the order of the aligned mantissas. *)
Lemma aligned_le ma ea mb eb :
  canonical_mantissa 53 1024 ma ea = true ->
  canonical_mantissa 53 1024 mb eb = true ->
  ea < eb \/ ea = eb /\ (ma <= mb)%positive ->
  Zpos (shl_align ma ea (Z.min ea eb)).1 <= Zpos (shl_align mb eb (Z.min ea eb)).1.
Proof.
  unfold canonical_mantissa, fexp, emin. intros Ha Hb Hord.
  apply Z.eqb_eq in Ha, Hb.
  rewrite !shl_align_value by lia.
  pose proof (digits2_pos_bounds ma) as [_ Hma].
  pose proof (digits2_pos_bounds mb) as [Hmb _].
  destruct Hord as [Hlt | [-> Hm]].
  - rewrite Z.min_l by lia. rewrite Z.sub_diag, Z.mul_1_r.
    assert (Hda : Zpos (digits2_pos ma) <= 53) by lia.
    assert (Hdb : Zpos (digits2_pos mb) = 53) by lia.
    rewrite Hdb in Hmb.
    assert (H1 : 2 ^ Zpos (digits2_pos ma) <= 2 ^ 53)
      by (apply Z.pow_le_mono_r; lia).
    assert (H2 : 2 ^ 1 <= 2 ^ (eb - ea)) by (apply Z.pow_le_mono_r; lia).
    change (2 ^ (53 - 1)) with 4503599627370496 in Hmb.
    change (2 ^ 53) with 9007199254740992 in H1.
    change (2 ^ 1) with 2 in H2. nia.
  - rewrite Z.min_id, Z.sub_diag, !Z.mul_1_r. lia.
Qed.

Lemma round_aux_not_negative prec emax mx ex lx :
  not_negative (binary_round_aux prec emax false mx ex lx) = true.
Proof.
  unfold binary_round_aux.
  destruct (shr_fexp prec emax mx ex lx) as [mrs' e'].
  destruct (shr_fexp prec emax _ e' loc_Exact) as [mrs'' e''].
  destruct (shr_m mrs'') as [|m|m]; [reflexivity | | reflexivity].
  destruct (e'' <=? emax - prec); reflexivity.
Qed.

Lemma normalize_not_negative prec emax n e :
  0 <= n -> not_negative (binary_normalize prec emax n e false) = true.
Proof.
  intros Hn. destruct n as [|m|m]; [reflexivity | | lia].
  unfold binary_normalize, binary_round.
  destruct (shl_align m e _) as [mz ez]. apply round_aux_not_negative.
Qed.

Lemma fmul_not_negative a b :
  not_negative a = true -> not_negative b = true ->
  not_negative (Py.fmul a b) = true.
Proof.
  destruct a as [sa|[]| |[] ma ea], b as [sb|[]| |[] mb eb]; simpl;
    intros Ha Hb; try discriminate; try reflexivity;
    try (destruct sa; reflexivity); try (destruct sb; reflexivity).
  apply round_aux_not_negative.
Qed.

Lemma fdiv_not_negative a b :
  not_negative a = true -> not_negative b = true -> Py.is_zero b = false ->
  not_negative (Py.fdiv a b) = true.
Proof.
  destruct a as [sa|[]| |[] ma ea], b as [sb|[]| |[] mb eb]; simpl;
    intros Ha Hb Hz; try discriminate; try reflexivity;
    try (destruct sa; reflexivity).
  unfold Py.fdiv, SFdiv.
  destruct (SFdiv_core_binary _ _ _ _ _ _) as [[mz ez] lz].
  apply round_aux_not_negative.
Qed.

Lemma of_int_not_negative n x :
  0 <= n -> Py.of_int n = inr x -> not_negative x = true.
Proof.
  intros Hn. unfold Py.of_int.
  pose proof (normalize_not_negative 53 1024 n 0 Hn) as Hx.
  destruct (binary_normalize 53 1024 n 0 false); intros [= <-]; exact Hx.
Qed.

Lemma int_not_negative x n :
  not_negative x = true -> Py.int_of_float x = inr n -> 0 <= n.
Proof.
  destruct x as [s|s| |[] m e]; simpl; intros Hx Hn; try discriminate;
    injection Hn as <-; [lia|].
  destruct (0 <=? e) eqn:He; simpl.
  - apply Z.leb_le in He. apply Z.mul_nonneg_nonneg; [lia | apply Z.pow_nonneg; lia].
  - apply Z.leb_gt in He. apply Z.div_pos; [lia | apply Z.pow_pos_nonneg; lia].
Qed.

(** The difference of two values in normal form, the lesser taken from
    the greater, is not below zero. *)
Lemma fsub_not_negative a b :
  valid_binary 53 1024 a = true -> valid_binary 53 1024 b = true ->
  Py.le b a = true -> not_negative (Py.fsub a b) = true.
Proof.
  unfold Py.le, SFleb, SFcompare, Py.fsub.
  destruct a as [sa|sa| |sa ma ea], b as [sb|sb| |sb mb eb];
    try destruct sa; try destruct sb; simpl; intros Ha Hb Hle;
    try discriminate; try reflexivity.
  - (* both negative *)
    apply andb_true_iff in Ha as [Ha _]. apply andb_true_iff in Hb as [Hb _].
    apply normalize_not_negative.
    assert (Hord : ea < eb \/ ea = eb /\ (ma <= mb)%positive).
    { change (Pos.compare_cont Eq) with Pos.compare in Hle.
      destruct (Z.compare_spec eb ea) as [Heq|Hlt|Hgt]; [|discriminate|left; lia].
      right. split; [lia|]. destruct (Pos.compare_spec mb ma); simpl in Hle;
        try discriminate; lia. }
    pose proof (aligned_le ma ea mb eb Ha Hb Hord). lia.
  - (* a positive, b negative *)
    unfold binary_round. destruct (shl_align _ _ _) as [mz ez].
    apply round_aux_not_negative.
  - (* both positive *)
    apply andb_true_iff in Ha as [Ha _]. apply andb_true_iff in Hb as [Hb _].
    apply normalize_not_negative.
    assert (Hord : eb < ea \/ eb = ea /\ (mb <= ma)%positive).
    { change (Pos.compare_cont Eq) with Pos.compare in Hle.
      destruct (Z.compare_spec eb ea) as [Heq|Hlt|Hgt]; [|left; lia|discriminate].
      right. split; [lia|]. destruct (Pos.compare_spec mb ma); simpl in Hle;
        try discriminate; lia. }
    pose proof (aligned_le mb eb ma ea Hb Ha Hord) as H.
    rewrite (Z.min_comm eb ea) in H. lia.
Qed.

Lemma canvas_geometry_ppd ref_layer others g :
  canvas_geometry ref_layer others = inr g ->
  exists img, png ref_layer = Some img
    /\ Py.int_truediv (nrows img) (Py.fsub (north ref_layer) (south ref_layer))
       = inr (ppd_lat g)
    /\ Py.int_truediv (ncols img) (Py.fsub (east ref_layer) (west ref_layer))
       = inr (ppd_lon g).
Proof.
  unfold canvas_geometry. destruct (png ref_layer) as [img|]; [|discriminate].
  simpl.
  destruct (Py.int_truediv (nrows img) _) as [?|plat] eqn:Hplat; [discriminate|].
  destruct (Py.int_truediv (ncols img) _) as [?|plon] eqn:Hplon; [discriminate|].
  simpl.
  destruct (Py.int_of_float (Py.fmul (Py.fsub _ _) plat)) as [?|mh]; [discriminate|].
  destruct (Py.int_of_float (Py.fmul (Py.fsub _ _) plon)) as [?|mw]; [discriminate|].
  simpl. destruct ((mh <? 0) || (mw <? 0)); [discriminate|].
  intros [= <-]. exists img. rewrite Hplat, Hplon. repeat split; reflexivity.
Qed.

Lemma truediv_not_negative n d p :
  0 <= n -> not_negative d = true -> Py.int_truediv n d = inr p ->
  not_negative p = true.
Proof.
  intros Hn Hd. unfold Py.int_truediv.
  destruct (Py.is_zero d) eqn:Hz; [discriminate|].
  destruct (Py.of_int n) as [?|x] eqn:Hx; [discriminate|].
  simpl. intros [= <-].
  apply fdiv_not_negative; [exact (of_int_not_negative n x Hn Hx) | exact Hd | exact Hz].
Qed.

Lemma layer_extent_starts g layer src_arr e :
  layer_extent g layer src_arr = Some e ->
  Py.int_of_float (Py.fmul (Py.fsub (global_north g) (north layer)) (ppd_lat g))
  = inr (y_start e)
  /\ Py.int_of_float (Py.fmul (Py.fsub (west layer) (global_west g)) (ppd_lon g))
     = inr (x_start e).
Proof.
  unfold layer_extent.
  destruct (Py.int_of_float _) as [?|ys]; [discriminate|].
  destruct (Py.int_of_float _) as [?|xs]; [discriminate|].
  destruct (_ || _); [discriminate|].
  intros [= <-]. split; reflexivity.
Qed.

Lemma box_values_numbers l : box_of_values l -> box_of_numbers l.
Proof. intros ([_ ?] & [_ ?] & [_ ?] & [_ ?]). repeat split; assumption. Qed.

(** X12. With bounds as float() returns them (binary64 values, no NaN)
    and a reference layer whose north is above its south and whose east
    is beyond its west, no layer gets a negative offset on the canvas:
    y_start and x_start are at least 0, so that the slices of the merge
    loop never count from the far edge, and the pixel (i, j) of a layer
    lands on the cell (y_start + i, x_start + j) of the canvas, for the
    rows below y_end and the columns below x_end. *)
Theorem layers_laid_from_origin (ref_layer : MapLayer) (others : list MapLayer)
    (g : geometry) :
  canvas_geometry ref_layer others = inr g ->
  Forall box_of_values (ref_layer :: others) ->
  Py.lt (south ref_layer) (north ref_layer) = true ->
  Py.lt (west ref_layer) (east ref_layer) = true ->
  (forall img, png ref_layer = Some img -> 0 <= nrows img /\ 0 <= ncols img) ->
  forall l src_arr e,
    l ∈ ref_layer :: others ->
    png l = Some src_arr ->
    layer_extent g l src_arr = Some e ->
    0 <= y_start e /\ 0 <= x_start e
    /\ forall y x,
         landing g l y x
         = if (y_start e <=? y) && (y <? y_end e) && (x_start e <=? x) && (x <? x_end e)
           then Some (cell src_arr (y - y_start e) (x - x_start e))
           else None.
Proof.
  intros Hg Hvals Hlat Hlon Hdims l src_arr e Hl Hpng He.
  assert (Hnum : Forall box_of_numbers (ref_layer :: others))
    by (eapply Forall_impl; [exact Hvals | exact box_values_numbers]).
  destruct (canvas_holds_layer _ _ _ _ Hg Hnum Hl) as (Hn & _ & _ & Hw).
  destruct (canvas_geometry_inv _ _ _ Hg) as (Hgn & _ & _ & Hgw & _).
  destruct (canvas_geometry_ppd _ _ _ Hg) as (img & Himg & Hplat & Hplon).
  destruct (Hdims img Himg) as [Hrows Hcols].
  destruct (layer_extent_starts _ _ _ _ He) as [Hys Hxs].
  pose proof (proj1 (Forall_forall _ _) Hvals) as Hval.
  destruct (Hval l Hl) as ([Hvn _] & _ & _ & [Hvw _]).
  destruct (Hval ref_layer ltac:(left)) as ([Hrn _] & [Hrs _] & [Hre _] & [Hrw _]).
  assert (Hvgn : valid_binary 53 1024 (global_north g) = true).
  { rewrite Hgn.
    destruct (elem_of_bounds north ref_layer others _ (max_item _ _)) as (l' & Hl' & <-).
    destruct (Hval l' Hl') as ([H _] & _). exact H. }
  assert (Hvgw : valid_binary 53 1024 (global_west g) = true).
  { rewrite Hgw.
    destruct (elem_of_bounds west ref_layer others _ (min_item _ _)) as (l' & Hl' & <-).
    destruct (Hval l' Hl') as (_ & _ & _ & [H _]). exact H. }
  assert (Hlat' : not_negative (ppd_lat g) = true).
  { apply (truediv_not_negative _ _ _ Hrows) in Hplat; [exact Hplat|].
    apply fsub_not_negative; [assumption | assumption | apply lt_le, Hlat]. }
  assert (Hlon' : not_negative (ppd_lon g) = true).
  { apply (truediv_not_negative _ _ _ Hcols) in Hplon; [exact Hplon|].
    apply fsub_not_negative; [assumption | assumption | apply lt_le, Hlon]. }
  assert (Hy : 0 <= y_start e).
  { apply (int_not_negative _ _) in Hys; [exact Hys|].
    apply fmul_not_negative; [|exact Hlat'].
    apply fsub_not_negative; assumption. }
  assert (Hx : 0 <= x_start e).
  { apply (int_not_negative _ _) in Hxs; [exact Hxs|].
    apply fmul_not_negative; [|exact Hlon'].
    apply fsub_not_negative; assumption. }
  split; [exact Hy|]. split; [exact Hx|].
  intros y x. exact (landing_plain g l src_arr e y x Hpng He Hy Hx).
Qed.

(** The reference layer and the layer to its north-east. *)
Lemma layers_laid_from_origin_witness :
  canvas_geometry reference_layer [far_layer] = inr union_geometry
  /\ forall l src_arr e,
       l ∈ [reference_layer; far_layer] ->
       png l = Some src_arr ->
       layer_extent union_geometry l src_arr = Some e ->
       0 <= y_start e /\ 0 <= x_start e
       /\ forall y x,
            landing union_geometry l y x
            = if (y_start e <=? y) && (y <? y_end e)
                 && (x_start e <=? x) && (x <? x_end e)
              then Some (cell src_arr (y - y_start e) (x - x_start e))
              else None.
Proof.
  assert (Hg : canvas_geometry reference_layer [far_layer] = inr union_geometry)
    by (vm_compute; reflexivity).
  assert (Hvals : Forall box_of_values [reference_layer; far_layer])
    by (repeat constructor).
  assert (Hlat : Py.lt (south reference_layer) (north reference_layer) = true)
    by (vm_compute; reflexivity).
  assert (Hlon : Py.lt (west reference_layer) (east reference_layer) = true)
    by (vm_compute; reflexivity).
  assert (Hdims : forall img, png reference_layer = Some img ->
                              0 <= nrows img /\ 0 <= ncols img)
    by (intros img [= <-]; simpl; lia).
  split; [exact Hg|].
  exact (layers_laid_from_origin reference_layer [far_layer] union_geometry
           Hg Hvals Hlat Hlon Hdims).
Defined.
